(** * steam-appmanifest: the fetch / filter / toggle / write pipeline

    A shallow embedding of [steam-appmanifest.py].  The Gtk window is a
    record of the fields the callbacks read and write; every callback is a
    function from window state to window state.  The outside world (the HTTP
    server, the XML parser, the file system) enters through an [Env] record
    of oracles, and what the program does to it (requests sent, dialogs
    shown, files written) is logged in the state.

    Python [str] values are modelled as [string]; one [ascii] stands for one
    code point in U+0000..U+00FF, the range on which [str.lower] and
    [str.strip] are given below in full. *)

From Stdlib Require Import Bool Arith List Ascii String Lia.
From Stdlib Require Import DecimalString.
Import ListNotations.
Local Open Scope string_scope.

(* ------------------------------------------------------------------ *)
(** ** Python string operations used by the callbacks *)

Module PyStr.

(** [str.isspace] on one code point below U+0100: TAB..CR, FS..US, SPACE,
    NEL and NBSP.  These are the characters [str.strip()] removes. *)
Definition is_space (c : ascii) : bool :=
  let n := nat_of_ascii c in
  (((9 <=? n) && (n <=? 13)) || ((28 <=? n) && (n <=? 32))
   || (n =? 133) || (n =? 160))%nat.

(** [str.lower] on one code point below U+0100: A..Z and the Latin-1
    capitals U+00C0..U+00DE (without the multiplication sign U+00D7) move
    up by 32; everything else is kept.  On this range [str.lower] is a
    character-by-character map; beyond it, it is not (it depends on the
    position for the capital sigma and changes the length for U+0130), which
    is why the filter is specified below on the lowered forms. *)
Definition lower_char (c : ascii) : ascii :=
  let n := nat_of_ascii c in
  if (((65 <=? n) && (n <=? 90))
      || ((192 <=? n) && (n <=? 222) && negb (n =? 215)))%nat
  then ascii_of_nat (n + 32)
  else c.

Fixpoint lower (s : string) : string :=
  match s with
  | EmptyString => EmptyString
  | String c s' => String (lower_char c) (lower s')
  end.

(** Python truthiness of a [str]: [not s] holds for the empty string only. *)
Definition is_empty (s : string) : bool :=
  match s with
  | EmptyString => true
  | String _ _ => false
  end.

Fixpoint lstrip (s : string) : string :=
  match s with
  | EmptyString => EmptyString
  | String c s' => if is_space c then lstrip s' else s
  end.

Fixpoint rstrip (s : string) : string :=
  match s with
  | EmptyString => EmptyString
  | String c s' =>
      let r := rstrip s' in
      if is_space c && is_empty r then EmptyString else String c r
  end.

(** [s.strip()] *)
Definition strip (s : string) : string := rstrip (lstrip s).

(** [s.startswith(p)] *)
Fixpoint startswith (s p : string) : bool :=
  match p, s with
  | EmptyString, _ => true
  | String _ _, EmptyString => false
  | String a p', String b s' => Ascii.eqb a b && startswith s' p'
  end.

(** [s.endswith("/")] *)
Fixpoint endswith_char (s : string) (c : ascii) : bool :=
  match s with
  | EmptyString => false
  | String a EmptyString => Ascii.eqb a c
  | String _ s' => endswith_char s' c
  end.

(** [p in s]: [p] occurs in [s] at some offset. *)
Fixpoint contains (s p : string) : bool :=
  startswith s p ||
  match s with
  | EmptyString => false
  | String _ s' => contains s' p
  end.

(** [str(n)] for a non-negative [int]. *)
Definition str_of_nat (n : nat) : string :=
  NilEmpty.string_of_uint (Nat.to_uint n).

(** Every character of [s] is whitespace. *)
Fixpoint all_space (s : string) : bool :=
  match s with
  | EmptyString => true
  | String c s' => is_space c && all_space s'
  end.

End PyStr.
Import PyStr.

(* ------------------------------------------------------------------ *)
(** ** xml.etree.ElementTree: the part of the element API the program uses *)

Module ElementTree.

(** An element with its tag, its [text] ([None] when the element has no
    character data before its first child) and its sub-elements. *)
#[warnings="-register-all"]
Inductive Element : Type :=
| Elem (tag : string) (text : option string) (children : list Element).

Definition tag (e : Element) : string :=
  match e with Elem t _ _ => t end.

Definition text (e : Element) : option string :=
  match e with Elem _ x _ => x end.

Definition children (e : Element) : list Element :=
  match e with Elem _ _ cs => cs end.

(** The element itself and everything below it, in document order. *)
Fixpoint walk (e : Element) : list Element :=
  match e with
  | Elem _ _ cs => e :: flat_map walk cs
  end.

(** [e.iter(t)]: the elements of [walk e] whose tag is [t]. *)
Definition iter (e : Element) (t : string) : list Element :=
  filter (fun x => String.eqb (tag x) t) (walk e).

(** [e.find(t)] for a plain tag name: the first direct child tagged [t]. *)
Definition find (e : Element) (t : string) : option Element :=
  List.find (fun c => String.eqb (tag c) t) (children e).

(** [ET.fromstring(text)] either raises [ParseError] or returns the root. *)
Inductive parse_result : Type :=
| ParseError (e : string)
| Parsed (root : Element).

End ElementTree.
Import ElementTree.

(* ------------------------------------------------------------------ *)
(** ** The outside world *)

(** [requests.get(url, timeout=10)] followed by [raise_for_status()]: the
    [try] block either raises a [RequestException] (printed as [e]) or
    leaves a response whose body is [text]. *)
Inductive http_result : Type :=
| RequestException (e : string)
| Response (text : string).

(** [with open(path, 'w', encoding='utf-8') as f: f.write(content)]: the
    block completes, or [open] raises [OSError] and the file is untouched, or
    the write raises [OSError] after the file was truncated and [written]
    reached it. *)
Inductive io_result : Type :=
| Written
| OpenError (e : string)
| WriteError (e : string) (written : string).

Record Env : Type := {
  requests_get : string -> http_result;
  ET_fromstring : string -> parse_result;
  os_path_isdir : string -> bool;
  open_write : string -> string -> io_result
}.

(** [os.path.join(a, b)] as [posixpath] defines it (separator [/]). *)
Definition os_path_join (a b : string) : string :=
  if startswith b "/" then b
  else if is_empty a || endswith_char a "/"%char then a ++ b
  else a ++ "/" ++ b.

(* ------------------------------------------------------------------ *)
(** ** Window state *)

(** One row of [Gtk.ListStore(bool, str, str)]: (toggled, app_id, name). *)
Record Row : Type := {
  toggled : bool;
  app_id : string;
  game_name : string
}.

Record Window : Type := {
  games_store : list Row;
  search_text : string;
  profile_entry : string;        (* text of the profile-id entry *)
  library_entry : string;        (* text of the library-path entry *)
  dialogs : list string;         (* messages shown so far, oldest first *)
  requests_sent : list string;   (* urls requested so far, oldest first *)
  files : list (string * string) (* (path, content) written, latest first *)
}.

Definition set_games_store (w : Window) (l : list Row) : Window :=
  {| games_store := l; search_text := search_text w;
     profile_entry := profile_entry w; library_entry := library_entry w;
     dialogs := dialogs w; requests_sent := requests_sent w;
     files := files w |}.

Definition set_search_text (w : Window) (s : string) : Window :=
  {| games_store := games_store w; search_text := s;
     profile_entry := profile_entry w; library_entry := library_entry w;
     dialogs := dialogs w; requests_sent := requests_sent w;
     files := files w |}.

Definition set_files (w : Window) (fs : list (string * string)) : Window :=
  {| games_store := games_store w; search_text := search_text w;
     profile_entry := profile_entry w; library_entry := library_entry w;
     dialogs := dialogs w; requests_sent := requests_sent w;
     files := fs |}.

Definition log_request (w : Window) (url : string) : Window :=
  {| games_store := games_store w; search_text := search_text w;
     profile_entry := profile_entry w; library_entry := library_entry w;
     dialogs := dialogs w; requests_sent := requests_sent w ++ [url];
     files := files w |}.

(** [show_message]: the dialog runs and is destroyed; only its text stays. *)
Definition show_message (w : Window) (message : string) : Window :=
  {| games_store := games_store w; search_text := search_text w;
     profile_entry := profile_entry w; library_entry := library_entry w;
     dialogs := dialogs w ++ [message]; requests_sent := requests_sent w;
     files := files w |}.

(* ------------------------------------------------------------------ *)
(** ** The manifest template and [str.format] *)

Definition nl : string := String "010"%char EmptyString.
Definition dq : string := String "034"%char EmptyString.

(** The module constant, line by line ([dq] is the double quote, [nl] the
    line feed; the backslash after the opening quotes removes the first line
    break, the closing quotes follow the last one). *)
Definition STEAM_MANIFEST_TEMPLATE : string :=
  dq ++ "AppState" ++ dq ++ nl ++
  "{{" ++ nl ++
  "    " ++ dq ++ "AppID" ++ dq ++ "        " ++ dq ++ "{app_id}" ++ dq ++ nl ++
  "    " ++ dq ++ "Universe" ++ dq ++ "      " ++ dq ++ "1" ++ dq ++ nl ++
  "    " ++ dq ++ "name" ++ dq ++ "          " ++ dq ++ "{app_name}" ++ dq ++ nl ++
  "    " ++ dq ++ "StateFlags" ++ dq ++ "    " ++ dq ++ "4" ++ dq ++ nl ++
  "    " ++ dq ++ "installdir" ++ dq ++ "    " ++ dq ++ "{app_name}" ++ dq ++ nl ++
  "    " ++ dq ++ "LastUpdated" ++ dq ++ "   " ++ dq ++ "0" ++ dq ++ nl ++
  "    " ++ dq ++ "UpdateResult" ++ dq ++ "  " ++ dq ++ "0" ++ dq ++ nl ++
  "    " ++ dq ++ "SizeOnDisk" ++ dq ++ "    " ++ dq ++ "0" ++ dq ++ nl ++
  "    " ++ dq ++ "buildid" ++ dq ++ "       " ++ dq ++ "0" ++ dq ++ nl ++
  "    " ++ dq ++ "LastOwner" ++ dq ++ "     " ++ dq ++ "0" ++ dq ++ nl ++
  "    " ++ dq ++ "BytesToDownload" ++ dq ++ "   " ++ dq ++ "0" ++ dq ++ nl ++
  "    " ++ dq ++ "BytesDownloaded" ++ dq ++ "   " ++ dq ++ "0" ++ dq ++ nl ++
  "    " ++ dq ++ "BytesToStage" ++ dq ++ "      " ++ dq ++ "0" ++ dq ++ nl ++
  "    " ++ dq ++ "BytesStaged" ++ dq ++ "       " ++ dq ++ "0" ++ dq ++ nl ++
  "}}" ++ nl.

(** Keyword arguments of a [format] call. *)
Definition kwargs : Type := list (string * string).

Fixpoint kwarg (kw : kwargs) (name : string) : option string :=
  match kw with
  | [] => None
  | (k, v) :: kw' => if String.eqb k name then Some v else kwarg kw' name
  end.

(** Scanner state of [str.format]: in literal text, just after an opening
    brace, inside a replacement field whose name read so far is [name], or
    just after a closing brace in literal text. *)
Inductive fmt_state : Type :=
| Literal
| Opened
| Field (name : string)
| Closed.

(** [template.format] called with keyword arguments [kw], for templates
    whose replacement fields are plain keyword names.  A doubled brace is one literal brace; a field is
    replaced by its argument as it is (the argument is not scanned again).
    [None] stands for the exception Python raises on a stray brace, an
    unterminated field or a missing keyword. *)
Fixpoint format_from (st : fmt_state) (kw : kwargs) (t : string)
  : option string :=
  match t with
  | EmptyString =>
      match st with
      | Literal => Some EmptyString
      | _ => None
      end
  | String c t' =>
      match st with
      | Literal =>
          if Ascii.eqb c "{" then format_from Opened kw t'
          else if Ascii.eqb c "}" then format_from Closed kw t'
          else option_map (String c) (format_from Literal kw t')
      | Opened =>
          if Ascii.eqb c "{" then
            option_map (String c) (format_from Literal kw t')
          else if Ascii.eqb c "}" then None
          else format_from (Field (String c EmptyString)) kw t'
      | Field name =>
          if Ascii.eqb c "}" then
            match kwarg kw name with
            | Some v => option_map (append v) (format_from Literal kw t')
            | None => None
            end
          else if Ascii.eqb c "{" then None
          else format_from (Field (name ++ String c EmptyString)) kw t'
      | Closed =>
          if Ascii.eqb c "}" then
            option_map (String c) (format_from Literal kw t')
          else None
      end
  end.

Definition format (t : string) (kw : kwargs) : option string :=
  format_from Literal kw t.

(** [STEAM_MANIFEST_TEMPLATE.format(app_id=..., app_name=...)].  The
    template is well formed and names only these two keywords, so [format]
    never raises here (lemma [format_template] below); the empty string of
    the second branch is never produced. *)
Definition manifest_content (app_id game_name : string) : string :=
  match format STEAM_MANIFEST_TEMPLATE
               [("app_id", app_id); ("app_name", game_name)] with
  | Some content => content
  | None => EmptyString
  end.

(* ------------------------------------------------------------------ *)
(** ** The callbacks *)

(** [game_filter]: the visible_func of the filter model, on one row. *)
Definition game_filter (w : Window) (row : Row) : bool :=
  if is_empty (search_text w) then true
  else contains (lower (game_name row)) (search_text w).

(** [on_search_changed], [text] being what the search entry holds.
    [refilter()] recomputes the filter model, which [filtered_store] below
    derives from the state. *)
Definition on_search_changed (w : Window) (text : string) : Window :=
  set_search_text w (lower (strip text)).

(** The rows of [games_store], each with its position in the store. *)
Definition indexed (l : list Row) : list (nat * Row) :=
  combine (seq 0 (List.length l)) l.

(** [self.filtered_store]: the rows of the child store that pass
    [game_filter], in store order, each with the position it has in the
    child store. *)
Definition filtered_store (w : Window) : list (nat * Row) :=
  filter (fun ir => game_filter w (snd ir)) (indexed (games_store w)).

(** What the tree view shows. *)
Definition visible_rows (w : Window) : list Row :=
  map snd (filtered_store w).

(** [store[i][0] = b] *)
Fixpoint set_toggled (l : list Row) (i : nat) (b : bool) : list Row :=
  match l, i with
  | [], _ => []
  | r :: l', 0 =>
      {| toggled := b; app_id := app_id r; game_name := game_name r |} :: l'
  | r :: l', S i' => r :: set_toggled l' i' b
  end.

(** [on_toggle_toggled].  [path] is the position of the clicked row in the
    filter model (a one-level tree path).  [get_iter] raises [ValueError] on
    a path the filter model does not have: [None].  The child iter always
    names a row of the store, so the inner [None] is never returned (see
    [filtered_store_shown]). *)
Definition on_toggle_toggled (w : Window) (path : nat) : option Window :=
  match nth_error (filtered_store w) path with
  | None => None
  | Some filtered_iter =>
      let real_iter := fst filtered_iter in
      match nth_error (games_store w) real_iter with
      | None => None
      | Some row =>
          let current_state := toggled row in
          Some (set_games_store w
                  (set_toggled (games_store w) real_iter (negb current_state)))
      end
  end.

(** [game.find(t).text if game.find(t) is not None else None] *)
Definition find_text (game : Element) (t : string) : option string :=
  match find game t with
  | Some child => text child
  | None => None
  end.

(** Truthiness of a value that is [None] or a [str]. *)
Definition truthy (x : option string) : bool :=
  match x with
  | Some s => negb (is_empty s)
  | None => false
  end.

(** One turn of the loop over [games_xml].  A truthy value is a string, so
    the last branch is never taken. *)
Definition refresh_step (w : Window) (game : Element) : Window :=
  let app_id := find_text game "appID" in
  let name := find_text game "name" in
  if truthy app_id && truthy name then
    match app_id, name with
    | Some app_id, Some name =>
        set_games_store w
          (games_store w ++
           [{| toggled := false; app_id := app_id; game_name := name |}])
    | _, _ => w
    end
  else w.

(** One turn of the loop over [games_store] in [on_download_click]; the
    accumulator carries the window and [created_count]. *)
Definition download_step (env : Env) (steam_path : string)
  (acc : Window * nat) (row : Row) : Window * nat :=
  let (w, created_count) := acc in
  if toggled row then
    let content := manifest_content (app_id row) (game_name row) in
    let manifest_path :=
      os_path_join steam_path ("appmanifest_" ++ app_id row ++ ".acf") in
    match open_write env manifest_path content with
    | Written =>
        (set_files w ((manifest_path, content) :: files w),
         created_count + 1)
    | OpenError e =>
        (show_message w
           ("Error creating manifest for " ++ game_name row ++ ": " ++ e),
         created_count)
    | WriteError e written =>
        (show_message (set_files w ((manifest_path, written) :: files w))
           ("Error creating manifest for " ++ game_name row ++ ": " ++ e),
         created_count)
    end
  else acc.

(** The f-string that builds the request url. *)
Definition games_url (profile_id : string) : string :=
  "https://steamcommunity.com/id/" ++ profile_id ++ "/games?tab=all&xml=1".

Section Callbacks.

Variable env : Env.

(** [on_refresh_click] *)
Definition on_refresh_click (w : Window) : Window :=
  let profile_id := strip (profile_entry w) in
  if is_empty profile_id then show_message w "Please enter a profile ID."
  else
    let url := games_url profile_id in
    let w := log_request w url in
    match requests_get env url with
    | RequestException e =>
        show_message w ("Failed to fetch the profile: " ++ e)
    | Response body =>
        let w := set_games_store w [] in
        match ET_fromstring env body with
        | ParseError e => show_message w ("Failed to parse the XML: " ++ e)
        | Parsed root => fold_left refresh_step (iter root "game") w
        end
    end.

(** [on_download_click] *)
Definition on_download_click (w : Window) : Window :=
  let steam_path := library_entry w in
  if negb (os_path_isdir env steam_path) then
    show_message w "Please provide a valid Steam library path."
  else
    let (w', created_count) :=
      fold_left (download_step env steam_path) (games_store w) (w, 0) in
    show_message w'
      ("Successfully created " ++ str_of_nat created_count
       ++ " manifest files.").

End Callbacks.

(** The window as [__init__] leaves it, with the two entries filled in. *)
Definition init (profile library : string) : Window :=
  {| games_store := []; search_text := EmptyString;
     profile_entry := profile; library_entry := library;
     dialogs := []; requests_sent := []; files := [] |}.

(* ------------------------------------------------------------------ *)
(** ** The properties, in the words of the specification *)

(** [s] consists of whitespace only (the empty string included). *)
Definition whitespace_only (s : string) : Prop :=
  forall c, In c (list_ascii_of_string s) -> is_space c = true.

(** [name] contains [s] as a case-insensitive substring: some piece of
    [name] equals [s] once case is ignored. *)
Definition ci_substring (s name : string) : Prop :=
  exists pre piece post,
    name = pre ++ piece ++ post /\ lower piece = lower s.

(** The lowered [name] contains the lowered [s]: the two are compared after
    [str.lower] has been applied to each as a whole.  Where [str.lower] acts
    character by character this is [ci_substring]; in general it is not (a
    capital sigma is lowered differently at the end of a word), and it is
    this form that the program's test has. *)
Definition lowered_contains (s name : string) : Prop :=
  exists pre post, lower name = pre ++ lower s ++ post.

(** [after] is [before] with the flag of row [i] flipped and nothing else
    changed. *)
Definition flipped_at (before after : list Row) (i : nat) : Prop :=
  (exists row,
      nth_error before i = Some row /\
      nth_error after i =
        Some {| toggled := negb (toggled row); app_id := app_id row;
                game_name := game_name row |}) /\
  (forall j, j <> i -> nth_error after j = nth_error before j) /\
  List.length after = List.length before.

(** Row [i] of the store is visible and is shown at position [path]:
    exactly [path] visible rows precede it. *)
Definition shown_at (w : Window) (path i : nat) : Prop :=
  (exists row, nth_error (games_store w) i = Some row /\
               game_filter w row = true) /\
  List.length (filter (game_filter w) (firstn i (games_store w))) = path.

(** The first child of [game] tagged [t] carries the non-empty text [v]. *)
Definition first_child_text (game : Element) (t v : string) : Prop :=
  exists pre c post,
    children game = (pre ++ c :: post)%list /\
    (forall x, In x pre -> tag x <> t) /\
    tag c = t /\ text c = Some v /\ v <> EmptyString.

(** Some child of [game] tagged [t] carries the non-empty text [v]. *)
Definition some_child_text (game : Element) (t v : string) : Prop :=
  exists c,
    In c (children game) /\ tag c = t /\ text c = Some v /\
    v <> EmptyString.

(** The manifest for identifier [id] and display name [name], as the file
    format is laid down: the AppState block with [id] in the AppID field
    and [name] in the name and installdir fields. *)
Definition manifest_text (id name : string) : string :=
  dq ++ "AppState" ++ dq ++ nl ++
  "{" ++ nl ++
  "    " ++ dq ++ "AppID" ++ dq ++ "        " ++ dq ++ id ++ dq ++ nl ++
  "    " ++ dq ++ "Universe" ++ dq ++ "      " ++ dq ++ "1" ++ dq ++ nl ++
  "    " ++ dq ++ "name" ++ dq ++ "          " ++ dq ++ name ++ dq ++ nl ++
  "    " ++ dq ++ "StateFlags" ++ dq ++ "    " ++ dq ++ "4" ++ dq ++ nl ++
  "    " ++ dq ++ "installdir" ++ dq ++ "    " ++ dq ++ name ++ dq ++ nl ++
  "    " ++ dq ++ "LastUpdated" ++ dq ++ "   " ++ dq ++ "0" ++ dq ++ nl ++
  "    " ++ dq ++ "UpdateResult" ++ dq ++ "  " ++ dq ++ "0" ++ dq ++ nl ++
  "    " ++ dq ++ "SizeOnDisk" ++ dq ++ "    " ++ dq ++ "0" ++ dq ++ nl ++
  "    " ++ dq ++ "buildid" ++ dq ++ "       " ++ dq ++ "0" ++ dq ++ nl ++
  "    " ++ dq ++ "LastOwner" ++ dq ++ "     " ++ dq ++ "0" ++ dq ++ nl ++
  "    " ++ dq ++ "BytesToDownload" ++ dq ++ "   " ++ dq ++ "0" ++ dq ++ nl ++
  "    " ++ dq ++ "BytesDownloaded" ++ dq ++ "   " ++ dq ++ "0" ++ dq ++ nl ++
  "    " ++ dq ++ "BytesToStage" ++ dq ++ "      " ++ dq ++ "0" ++ dq ++ nl ++
  "    " ++ dq ++ "BytesStaged" ++ dq ++ "       " ++ dq ++ "0" ++ dq ++ nl ++
  "}" ++ nl.

(** The file [dir/appmanifest_<id>.acf]; no second separator is put after
    a [dir] that already ends in one. *)
Definition manifest_file (dir id : string) : string :=
  dir ++ (if is_empty dir || endswith_char dir "/"%char then "" else "/")
      ++ "appmanifest_" ++ id ++ ".acf".

(* ------------------------------------------------------------------ *)
(** ** Closed forms of the two loops *)

(** The row the loop body appends for [game], if it appends one. *)
Definition record_of (game : Element) : option Row :=
  match find_text game "appID", find_text game "name" with
  | Some a, Some n =>
      if negb (is_empty a) && negb (is_empty n)
      then Some {| toggled := false; app_id := a; game_name := n |}
      else None
  | _, _ => None
  end.

Definition option_list {A : Type} (x : option A) : list A :=
  match x with
  | Some a => [a]
  | None => []
  end.

(** The batch a parsed document stands for. *)
Definition parsed_rows (root : Element) : list Row :=
  flat_map (fun g => option_list (record_of g)) (iter root "game").

(** The selected rows, over the whole store. *)
Definition selected (w : Window) : list Row :=
  filter toggled (games_store w).

(** What the file system answers when the manifest of [r] is written. *)
Definition attempt (env : Env) (dir : string) (r : Row) : io_result :=
  open_write env (manifest_file dir (app_id r))
    (manifest_text (app_id r) (game_name r)).

Definition succeeded (env : Env) (dir : string) (r : Row) : bool :=
  match attempt env dir r with
  | Written => true
  | _ => false
  end.

(** The message recorded against [r] when its write fails. *)
Definition error_dialog (env : Env) (dir : string) (r : Row) : list string :=
  match attempt env dir r with
  | Written => []
  | OpenError e | WriteError e _ =>
      ["Error creating manifest for " ++ game_name r ++ ": " ++ e]
  end.

(** What the attempt for [r] leaves at its path. *)
Definition file_effect (env : Env) (dir : string) (r : Row)
  : list (string * string) :=
  match attempt env dir r with
  | Written =>
      [(manifest_file dir (app_id r),
        manifest_text (app_id r) (game_name r))]
  | OpenError _ => []
  | WriteError _ written => [(manifest_file dir (app_id r), written)]
  end.

Definition created_message (n : nat) : string :=
  "Successfully created " ++ str_of_nat n ++ " manifest files.".

(* ------------------------------------------------------------------ *)
(** ** Sample data for the examples *)

Definition row (t : bool) (i n : string) : Row :=
  {| toggled := t; app_id := i; game_name := n |}.

Definition with_rows (l : list Row) : Window :=
  set_games_store (init "gabe" "/srv/steamapps") l.

Definition portal_rows : list Row :=
  [row false "400" "Portal"; row true "620" "Portal 2";
   row false "70" "Half-Life"].

Definition chosen_rows : list Row :=
  [row true "400" "Portal"; row true "620" "Portal 2";
   row false "10" "Counter-Strike"; row true "70" "Half-Life"].

Definition game_elem (id name : option string) : Element :=
  Elem "game" None
    (match id with Some _ => [Elem "appID" id []] | None => [] end ++
     match name with Some _ => [Elem "name" name []] | None => [] end).

(** A games list with two complete entries, one without a name, one
    without an id and one whose id element is empty. *)
Definition sample_root : Element :=
  Elem "gamesList" None
    [Elem "steamID" (Some "gabe") [];
     Elem "games" None
       [game_elem (Some "10") (Some "Counter-Strike");
        game_elem (Some "20") None;
        game_elem None (Some "Ricochet");
        Elem "game" None [Elem "appID" None []; Elem "name" (Some "Opposing Force") []];
        game_elem (Some "70") (Some "Half-Life")]].

(** A game element whose first id child is empty and whose second is not. *)
Definition twice_id_game : Element :=
  Elem "game" None
    [Elem "appID" None []; Elem "appID" (Some "10") [];
     Elem "name" (Some "Counter-Strike") []].

Definition env_with (doc : parse_result) : Env :=
  {| requests_get := fun _ => Response "body";
     ET_fromstring := fun _ => doc;
     os_path_isdir := fun p => String.eqb p "/srv/steamapps";
     open_write := fun _ _ => Written |}.

(** The second write is refused. *)
Definition env_denied : Env :=
  {| requests_get := fun _ => Response "body";
     ET_fromstring := fun _ => Parsed sample_root;
     os_path_isdir := fun p => String.eqb p "/srv/steamapps";
     open_write := fun p _ =>
       if String.eqb p "/srv/steamapps/appmanifest_620.acf"
       then OpenError "[Errno 13] Permission denied"
       else Written |}.

(* ------------------------------------------------------------------ *)
(** ** Start-up, the Manual button and the user's edits *)

(** [os.path.join(a, *ps)] of [posixpath]: the loop over the later
    components. *)
Definition os_path_join_all (a : string) (ps : list string) : string :=
  fold_left os_path_join ps a.

(** [get_default_steam_path].  [sys_platform] is [sys.platform] and [home]
    is what [os.path.expanduser("~")] returns.  The two [join] calls run on
    macOS and Linux only, where [os.path] is [posixpath]. *)
Definition get_default_steam_path (sys_platform home : string) : string :=
  if startswith sys_platform "win" then
    "C:\Program Files (x86)\Steam\steamapps"
  else if startswith sys_platform "darwin" then
    os_path_join_all home
      ["Library"; "Application Support"; "Steam"; "steamapps"]
  else
    os_path_join_all home [".local"; "share"; "Steam"; "steamapps"].

(** The window as [__init__] leaves it: an empty store, no search text,
    an empty profile entry and the default library path. *)
Definition startup (sys_platform home : string) : Window :=
  init EmptyString (get_default_steam_path sys_platform home).

(** [on_manual_click] *)
Definition on_manual_click (w : Window) : Window :=
  show_message w
    "Manual button clicked. Provide instructions here if needed.".

(** The user types into the profile entry or the library entry; no
    callback is connected to either. *)
Definition set_profile_entry (w : Window) (s : string) : Window :=
  {| games_store := games_store w; search_text := search_text w;
     profile_entry := s; library_entry := library_entry w;
     dialogs := dialogs w; requests_sent := requests_sent w;
     files := files w |}.

Definition set_library_entry (w : Window) (s : string) : Window :=
  {| games_store := games_store w; search_text := search_text w;
     profile_entry := profile_entry w; library_entry := s;
     dialogs := dialogs w; requests_sent := requests_sent w;
     files := files w |}.

(** The windows a session can reach from [w0]: any sequence of callbacks
    and edits, the outside world answering as it likes each time.  A toggle
    whose path the view does not have raises and changes nothing. *)
Inductive reachable (w0 : Window) : Window -> Prop :=
| reach_start : reachable w0 w0
| reach_refresh (env : Env) (w : Window) :
    reachable w0 w -> reachable w0 (on_refresh_click env w)
| reach_search (w : Window) (text : string) :
    reachable w0 w -> reachable w0 (on_search_changed w text)
| reach_toggle (w w' : Window) (path : nat) :
    reachable w0 w -> on_toggle_toggled w path = Some w' -> reachable w0 w'
| reach_manual (w : Window) :
    reachable w0 w -> reachable w0 (on_manual_click w)
| reach_download (env : Env) (w : Window) :
    reachable w0 w -> reachable w0 (on_download_click env w)
| reach_profile (w : Window) (text : string) :
    reachable w0 w -> reachable w0 (set_profile_entry w text)
| reach_library (w : Window) (text : string) :
    reachable w0 w -> reachable w0 (set_library_entry w text).

(** A row with an identifier and a name. *)
Definition complete_row (r : Row) : Prop :=
  app_id r <> EmptyString /\ game_name r <> EmptyString.

(** A search text in the form [on_search_changed] stores: lowered and
    without whitespace at either end. *)
Definition normalised (s : string) : Prop :=
  lower s = s /\ strip s = s.

(** No whitespace at the left end. *)
Definition left_trimmed (s : string) : bool :=
  match s with
  | EmptyString => true
  | String c _ => negb (is_space c)
  end.

(** The identifiers and names of rows, without the flags. *)
Definition labels (l : list Row) : list (string * string) :=
  map (fun r => (app_id r, game_name r)) l.

(* ------------------------------------------------------------------ *)
(** ** String lemmas *)

Example lower_mixed : lower "Half-Life 2" = "half-life 2".
Proof. reflexivity. Qed.

Example strip_both : strip "  portal 2 	" = "portal 2".
Proof. reflexivity. Qed.

Example contains_mid : contains "half-life 2" "life" = true.
Proof. reflexivity. Qed.

Example contains_none : contains "half-life 2" "lie" = false.
Proof. reflexivity. Qed.

(** Latin-1 capitals are lowered, the multiplication sign is not; NBSP is
    whitespace. *)
Example lower_latin1 :
  lower_char (ascii_of_nat 201) = ascii_of_nat 233 /\
  lower_char (ascii_of_nat 215) = ascii_of_nat 215 /\
  is_space (ascii_of_nat 160) = true.
Proof. repeat split. Qed.

Example str_of_nat_12 : str_of_nat 12 = "12" /\ str_of_nat 0 = "0".
Proof. split; reflexivity. Qed.

Lemma is_empty_true (s : string) : is_empty s = true <-> s = EmptyString.
Proof. destruct s; simpl; split; congruence. Qed.

Lemma is_empty_false (s : string) : is_empty s = false <-> s <> EmptyString.
Proof. destruct s; simpl; split; congruence. Qed.

Lemma lower_append (a b : string) : lower (a ++ b) = lower a ++ lower b.
Proof. induction a; simpl; congruence. Qed.

(** A split of [lower s] comes from a split of [s]. *)
Lemma lower_split (s a b : string) :
  lower s = a ++ b ->
  exists s1 s2, s = s1 ++ s2 /\ lower s1 = a /\ lower s2 = b.
Proof.
  revert a; induction s as [|c s IH]; intros a H.
  - destruct a; simpl in H; [|discriminate].
    exists EmptyString, EmptyString; simpl; auto.
  - destruct a as [|x a]; simpl in H.
    + exists EmptyString, (String c s); simpl; auto.
    + injection H as Hc Hs.
      destruct (IH _ Hs) as (s1 & s2 & -> & H1 & H2).
      exists (String c s1), s2; simpl; subst; auto.
Qed.

Lemma startswith_spec (s p : string) :
  startswith s p = true <-> exists rest, s = p ++ rest.
Proof.
  revert s; induction p as [|a p IH]; intros s.
  - split; [exists s; reflexivity | destruct s; reflexivity].
  - destruct s as [|b s]; cbn [startswith].
    + split; [discriminate | intros [r H]; discriminate].
    + rewrite andb_true_iff, Ascii.eqb_eq, IH. split.
      * intros [-> [r ->]]; exists r; reflexivity.
      * intros [r H]; injection H as -> ->; split; eauto.
Qed.

Lemma contains_spec (s p : string) :
  contains s p = true <-> exists pre post, s = pre ++ p ++ post.
Proof.
  induction s as [|c s IH].
  - cbn [contains]. rewrite orb_false_r, startswith_spec. split.
    + intros [r H]; exists EmptyString, r; exact H.
    + intros (pre & post & H). destruct pre; [|discriminate].
      exists post; exact H.
  - cbn [contains]. rewrite orb_true_iff, startswith_spec, IH. split.
    + intros [[r H] | (pre & post & H)].
      * exists EmptyString, r; exact H.
      * exists (String c pre), post; simpl; congruence.
    + intros (pre & post & H). destruct pre as [|x pre]; simpl in H.
      * left; exists post; exact H.
      * right; injection H as _ H; exists pre, post; exact H.
Qed.

(** The test the program makes is the case-insensitive substring test. *)
Lemma contains_lower_spec (s name : string) :
  contains (lower name) (lower s) = true <-> ci_substring s name.
Proof.
  rewrite contains_spec. unfold ci_substring. split.
  - intros (a & b & H).
    destruct (lower_split _ _ _ H) as (pre & rest & -> & Ha & Hr).
    destruct (lower_split _ _ _ Hr) as (piece & post & -> & Hp & Hb).
    exists pre, piece, post; auto.
  - intros (pre & piece & post & -> & H).
    exists (lower pre), (lower post).
    now rewrite !lower_append, H.
Qed.

Lemma all_space_spec (s : string) : all_space s = true <-> whitespace_only s.
Proof.
  unfold whitespace_only; induction s as [|c s IH]; simpl.
  - split; [intros _ x [] | reflexivity].
  - rewrite andb_true_iff, IH. split.
    + intros [Hc Hs] x [<- | Hx]; auto.
    + intros H; split; [apply H; auto | intros x Hx; apply H; auto].
Qed.

Lemma lstrip_empty (s : string) :
  lstrip s = EmptyString <-> all_space s = true.
Proof.
  induction s as [|c s IH]; simpl; [tauto|].
  destruct (is_space c); simpl; [exact IH | split; discriminate].
Qed.

Lemma all_space_lstrip (s : string) : all_space (lstrip s) = all_space s.
Proof.
  induction s as [|c s IH]; simpl; [reflexivity|].
  destruct (is_space c) eqn:E; simpl; [exact IH | now rewrite E].
Qed.

Lemma rstrip_empty (s : string) :
  rstrip s = EmptyString <-> all_space s = true.
Proof.
  induction s as [|c s IH]; simpl; [tauto|].
  destruct (is_space c); simpl.
  - rewrite <- IH. destruct (rstrip s); simpl; split; congruence.
  - split; discriminate.
Qed.

Lemma strip_empty (s : string) : strip s = EmptyString <-> all_space s = true.
Proof. unfold strip. now rewrite rstrip_empty, all_space_lstrip. Qed.

(* ------------------------------------------------------------------ *)
(** ** The filter model *)

Lemma filter_snd_combine {A B : Type} (f : B -> bool)
  (l1 : list A) (l2 : list B) :
  List.length l1 = List.length l2 ->
  map snd (filter (fun ab => f (snd ab)) (combine l1 l2)) = filter f l2.
Proof.
  revert l1; induction l2 as [|b l2 IH]; intros [|a l1] H; simpl in *;
    try reflexivity; try discriminate.
  injection H as H. destruct (f b); simpl; now rewrite IH.
Qed.

(** The tree view shows the rows that pass [game_filter], in store order. *)
Lemma visible_rows_filter (w : Window) :
  visible_rows w = filter (game_filter w) (games_store w).
Proof.
  unfold visible_rows, filtered_store, indexed.
  apply filter_snd_combine. now rewrite length_seq.
Qed.

Lemma contains_empty (s : string) : contains s EmptyString = true.
Proof. destruct s; reflexivity. Qed.

(** After [on_search_changed w s] the filter is the substring test against
    the trimmed, lowered text; the early exit on an empty text agrees with
    it. *)
Lemma game_filter_after_search (w : Window) (s : string) (r : Row) :
  game_filter (on_search_changed w s) r
  = contains (lower (game_name r)) (lower (strip s)).
Proof.
  unfold game_filter, on_search_changed; simpl.
  destruct (lower (strip s)) eqn:E; simpl; [|reflexivity].
  now rewrite contains_empty.
Qed.

Lemma filter_all {A : Type} (f : A -> bool) (l : list A) :
  (forall x, In x l -> f x = true) -> filter f l = l.
Proof.
  induction l as [|a l IH]; simpl; intros H; [reflexivity|].
  rewrite (H a (or_introl eq_refl)), IH; auto.
Qed.

Example search_port :
  visible_rows (on_search_changed (with_rows portal_rows) " PORT") =
  [row false "400" "Portal"; row true "620" "Portal 2"].
Proof. reflexivity. Qed.

(** C1 (as amended).  For every batch and every filter text [s], after
    [on_search_changed] the visible rows are exactly the rows of the batch
    whose lowered name contains, as a substring, the whitespace-trimmed and
    then lowered [s], in store order, and the batch itself is untouched;
    after the empty text every row of the batch is visible, in store order.
    The proof uses no property of [lower]: the statement is about the
    lowered forms as [str.lower] gives them. *)
Theorem filter_shows_rows_by_lowered_text (w : Window) (s : string) :
  exists shown : Row -> bool,
    (forall r, shown r = true <-> lowered_contains (strip s) (game_name r)) /\
    visible_rows (on_search_changed w s) = filter shown (games_store w) /\
    games_store (on_search_changed w s) = games_store w /\
    visible_rows (on_search_changed w EmptyString) = games_store w.
Proof.
  exists (fun r => contains (lower (game_name r)) (lower (strip s))).
  split; [intros r; apply contains_spec|].
  split; [|split; [reflexivity|]].
  - rewrite visible_rows_filter. apply filter_ext.
    intros r; apply game_filter_after_search.
  - rewrite visible_rows_filter. apply filter_all. reflexivity.
Qed.

(** C1 as written fails: with the text "portal " (a trailing blank) the
    program shows "Portal", whose name does not contain "portal ". *)
Lemma filter_untrimmed_text_counterexample :
  let w := with_rows portal_rows in
  let s := "portal " in
  s <> EmptyString /\
  ~ (forall r, In r (visible_rows (on_search_changed w s)) <->
               In r (games_store w) /\ ci_substring s (game_name r)).
Proof.
  split; [discriminate|]. intros H.
  destruct (H (row false "400" "Portal")) as [H1 _].
  destruct H1 as [_ Hc]; [left; reflexivity|].
  apply contains_lower_spec in Hc. discriminate Hc.
Qed.

(** C10.  The filter text is trimmed before matching: a text made of
    whitespace only leaves every row of the batch visible, as the empty
    text does. *)
Theorem blank_filter_shows_all (w : Window) (s : string) :
  all_space s = true ->
  visible_rows (on_search_changed w s) = games_store w /\
  visible_rows (on_search_changed w s)
  = visible_rows (on_search_changed w EmptyString) /\
  search_text (on_search_changed w s) = EmptyString.
Proof.
  intros H. apply strip_empty in H.
  assert (E : on_search_changed w s = on_search_changed w EmptyString)
    by (unfold on_search_changed; now rewrite H).
  rewrite E. repeat split.
  rewrite visible_rows_filter. apply filter_all. reflexivity.
Qed.

Lemma blank_filter_shows_all_witness :
  all_space "   " = true /\
  visible_rows (on_search_changed (with_rows portal_rows) "   ")
  = portal_rows.
Proof.
  split; [reflexivity|].
  apply (blank_filter_shows_all (with_rows portal_rows) "   "). reflexivity.
Defined.

(* ------------------------------------------------------------------ *)
(** ** Toggling through the filter model *)

Lemma set_toggled_length (l : list Row) (i : nat) (b : bool) :
  List.length (set_toggled l i b) = List.length l.
Proof.
  revert i; induction l as [|r l IH]; intros [|i]; simpl; auto.
Qed.

Lemma set_toggled_same (l : list Row) (i : nat) (b : bool) (r : Row) :
  nth_error l i = Some r ->
  nth_error (set_toggled l i b) i
  = Some {| toggled := b; app_id := app_id r; game_name := game_name r |}.
Proof.
  revert i; induction l as [|a l IH]; intros [|i] H; simpl in *;
    try discriminate.
  - now injection H as ->.
  - now apply IH.
Qed.

Lemma set_toggled_other (l : list Row) (i j : nat) (b : bool) :
  j <> i -> nth_error (set_toggled l i b) j = nth_error l j.
Proof.
  revert i j; induction l as [|a l IH]; intros [|i] [|j] H; simpl;
    try reflexivity.
  - contradiction.
  - apply IH. congruence.
Qed.

(** The row shown at position [path] of a filter over [l] (positions
    counted from [k]) is the row of [l] that passes the filter and is
    preceded by exactly [path] passing rows. *)
Lemma filter_indexed_nth (f : Row -> bool) (l : list Row) :
  forall (k i path : nat) (r : Row),
    nth_error l i = Some r ->
    f r = true ->
    List.length (filter f (firstn i l)) = path ->
    nth_error
      (filter (fun ir => f (snd ir)) (combine (seq k (List.length l)) l))
      path
    = Some (k + i, r).
Proof.
  induction l as [|a l IH]; intros k [|i] path r Hn Hf Hp; simpl in *;
    try discriminate.
  - injection Hn as ->. rewrite Hf. subst path. simpl.
    now rewrite Nat.add_0_r.
  - destruct (f a); simpl in *.
    + subst path. simpl. rewrite (IH (S k) i _ r Hn Hf eq_refl).
      f_equal; f_equal; lia.
    + rewrite (IH (S k) i path r Hn Hf Hp). f_equal; f_equal; lia.
Qed.

Lemma filtered_store_shown (w : Window) (path i : nat) (r : Row) :
  nth_error (games_store w) i = Some r ->
  game_filter w r = true ->
  List.length (filter (game_filter w) (firstn i (games_store w))) = path ->
  nth_error (filtered_store w) path = Some (i, r).
Proof.
  intros Hn Hf Hp. unfold filtered_store, indexed.
  now rewrite (filter_indexed_nth (game_filter w) _ 0 i path r Hn Hf Hp).
Qed.

Lemma set_toggled_flipped (l : list Row) (i : nat) (r : Row) :
  nth_error l i = Some r ->
  flipped_at l (set_toggled l i (negb (toggled r))) i.
Proof.
  intros H. split; [|split].
  - exists r. split; [exact H|]. now apply set_toggled_same.
  - intros j Hj. now apply set_toggled_other.
  - apply set_toggled_length.
Qed.

Example toggle_filtered :
  option_map games_store
    (on_toggle_toggled (on_search_changed (with_rows portal_rows) "half") 0)
  = Some [row false "400" "Portal"; row true "620" "Portal 2";
          row true "70" "Half-Life"].
Proof. reflexivity. Qed.

(** A path the current view does not have raises in [get_iter]. *)
Example toggle_missing_path :
  on_toggle_toggled (on_search_changed (with_rows portal_rows) "half") 1
  = None.
Proof. reflexivity. Qed.

(** C3.  The handle of a visible row is the path the tree view delivers
    with the toggle, resolved in the same call against the view of the
    filter then active.  Whatever that filter is, the path of a visible row
    flips the flag of exactly the store row shown there and leaves every
    other row and the filter as they were; once the filter is cleared the
    view shows the whole batch with that one row flipped (selected if it was
    not). *)
Theorem toggle_flips_row_shown_at_path (w : Window) (path i : nat) :
  shown_at w path i ->
  exists w',
    on_toggle_toggled w path = Some w' /\
    flipped_at (games_store w) (games_store w') i /\
    search_text w' = search_text w /\
    flipped_at (games_store w)
      (visible_rows (on_search_changed w' EmptyString)) i.
Proof.
  intros [(r & Hn & Hf) Hp].
  unfold on_toggle_toggled.
  rewrite (filtered_store_shown w path i r Hn Hf Hp). simpl. rewrite Hn.
  eexists; split; [reflexivity|]. simpl.
  split; [now apply set_toggled_flipped|]. split; [reflexivity|].
  rewrite visible_rows_filter, filter_all by reflexivity. simpl.
  now apply set_toggled_flipped.
Qed.

Lemma toggle_flips_row_shown_at_path_witness :
  let w := on_search_changed (with_rows portal_rows) "half" in
  shown_at w 0 2 /\
  exists w',
    on_toggle_toggled w 0 = Some w' /\
    flipped_at (games_store w) (games_store w') 2 /\
    search_text w' = search_text w /\
    flipped_at (games_store w)
      (visible_rows (on_search_changed w' EmptyString)) 2.
Proof.
  assert (H : shown_at
                (on_search_changed (with_rows portal_rows) "half") 0 2).
  { split; [|reflexivity]. eexists; split; reflexivity. }
  split; [exact H|].
  exact (toggle_flips_row_shown_at_path _ 0 2 H).
Defined.

(* ------------------------------------------------------------------ *)
(** ** Refresh *)

Lemma find_first {A : Type} (f : A -> bool) (l : list A) (c : A) :
  List.find f l = Some c <->
  exists pre post,
    l = (pre ++ c :: post)%list /\ f c = true /\
    (forall x, In x pre -> f x = false).
Proof.
  induction l as [|a l IH]; simpl.
  - split; [discriminate | intros (pre & post & H & _)].
    destruct pre; discriminate.
  - destruct (f a) eqn:E.
    + split.
      * intros H; injection H as ->. exists [], l. simpl; repeat split; auto.
        intros x [].
      * intros (pre & post & H & Hc & Hpre). destruct pre as [|x pre].
        -- simpl in H. congruence.
        -- injection H as -> _. rewrite (Hpre x) in E by (left; auto).
           discriminate.
    + rewrite IH. split.
      * intros (pre & post & -> & Hc & Hpre). exists (a :: pre), post.
        repeat split; auto. intros x [<- | Hx]; auto.
      * intros (pre & post & H & Hc & Hpre). destruct pre as [|x pre].
        -- simpl in H. injection H as -> _. congruence.
        -- injection H as _ ->. exists pre, post. repeat split; auto.
           intros y Hy. apply Hpre. right; exact Hy.
Qed.

Lemma find_text_first (game : Element) (t v : string) :
  find_text game t = Some v /\ is_empty v = false <->
  first_child_text game t v.
Proof.
  unfold find_text, find, first_child_text. split.
  - intros [H Hv]. destruct (List.find _ _) as [c|] eqn:E; [|discriminate].
    apply find_first in E. destruct E as (pre & post & Hl & Hc & Hpre).
    exists pre, c, post. apply String.eqb_eq in Hc.
    repeat split; auto.
    + intros x Hx Ht. apply Hpre in Hx. apply String.eqb_neq in Hx. auto.
    + now apply is_empty_false.
  - intros (pre & c & post & Hl & Hpre & Hc & Hx & Hv).
    assert (E : List.find (fun c => String.eqb (tag c) t) (children game)
                = Some c).
    { apply find_first. exists pre, post. repeat split; auto.
      - now apply String.eqb_eq.
      - intros x Hin. apply String.eqb_neq. auto. }
    rewrite E. split; [exact Hx | now apply is_empty_false].
Qed.

Lemma record_of_some (game : Element) (r : Row) :
  record_of game = Some r <->
  toggled r = false /\
  first_child_text game "appID" (app_id r) /\
  first_child_text game "name" (game_name r).
Proof.
  rewrite <- !find_text_first. unfold record_of. split.
  - destruct (find_text game "appID") as [a|]; [|discriminate].
    destruct (find_text game "name") as [n|]; [|discriminate].
    destruct (is_empty a) eqn:Ea, (is_empty n) eqn:En; simpl;
      try discriminate.
    intros H; injection H as <-. simpl. auto.
  - intros (Ht & [-> ->] & [-> ->]). simpl.
    destruct r; simpl in *; now subst.
Qed.

Lemma record_of_none (game : Element) :
  record_of game = None <->
  ~ (exists a n, first_child_text game "appID" a /\
                 first_child_text game "name" n).
Proof.
  split.
  - intros H (a & n & Ha & Hn).
    assert (E : record_of game = Some (row false a n))
      by (apply record_of_some; auto).
    congruence.
  - intros H. destruct (record_of game) as [r|] eqn:E; [|reflexivity].
    apply record_of_some in E. destruct E as (_ & Ha & Hn).
    exfalso; apply H; eauto.
Qed.

Lemma set_games_store_same (w : Window) :
  set_games_store w (games_store w ++ []) = w.
Proof. destruct w; unfold set_games_store; simpl. now rewrite app_nil_r. Qed.

Lemma refresh_step_record (w : Window) (game : Element) :
  refresh_step w game
  = set_games_store w (games_store w ++ option_list (record_of game)).
Proof.
  unfold refresh_step, record_of, truthy.
  destruct (find_text game "appID") as [a|], (find_text game "name") as [n|];
    try (destruct (is_empty a)); try (destruct (is_empty n)); simpl;
    try reflexivity; now rewrite set_games_store_same.
Qed.

Lemma refresh_loop (games : list Element) (w : Window) :
  fold_left refresh_step games w
  = set_games_store w
      (games_store w ++ flat_map (fun g => option_list (record_of g)) games).
Proof.
  revert w; induction games as [|g games IH]; intros w; simpl.
  - now rewrite set_games_store_same.
  - rewrite IH, refresh_step_record. unfold set_games_store; simpl.
    now rewrite <- app_assoc.
Qed.

Lemma parsed_rows_untoggled (root : Element) :
  Forall (fun r => toggled r = false) (parsed_rows root).
Proof.
  unfold parsed_rows. apply Forall_flat_map, Forall_forall. intros g _.
  destruct (record_of g) as [r|] eqn:E; simpl; constructor; auto.
  now apply record_of_some in E.
Qed.

(** The three ways [on_refresh_click] ends once the profile id is not
    blank. *)
Lemma refresh_unfold (env : Env) (w : Window) :
  all_space (profile_entry w) = false ->
  on_refresh_click env w =
  let url := games_url (strip (profile_entry w)) in
  match requests_get env url with
  | RequestException e =>
      show_message (log_request w url) ("Failed to fetch the profile: " ++ e)
  | Response body =>
      match ET_fromstring env body with
      | ParseError e =>
          show_message (set_games_store (log_request w url) [])
            ("Failed to parse the XML: " ++ e)
      | Parsed root =>
          set_games_store (log_request w url) (parsed_rows root)
      end
  end.
Proof.
  intros H. unfold on_refresh_click.
  destruct (is_empty (strip (profile_entry w))) eqn:E.
  - apply is_empty_true, strip_empty in E. congruence.
  - cbv zeta. destruct (requests_get env _); [reflexivity|].
    destruct (ET_fromstring env _); [reflexivity|].
    rewrite refresh_loop. reflexivity.
Qed.

Example refresh_sample :
  games_store (on_refresh_click (env_with (Parsed sample_root))
                 (with_rows portal_rows))
  = [row false "10" "Counter-Strike"; row false "70" "Half-Life"].
Proof. reflexivity. Qed.

(** C9.  A profile id that is empty or made of whitespace only ends the
    refresh with the "enter a profile ID" message and no request is sent;
    a request is sent only for a profile id whose trimmed form is not
    empty, and it goes to the url built from that trimmed form. *)
Theorem blank_profile_sends_no_request (env : Env) (w : Window) :
  (all_space (profile_entry w) = true ->
   on_refresh_click env w = show_message w "Please enter a profile ID." /\
   requests_sent (on_refresh_click env w) = requests_sent w /\
   games_store (on_refresh_click env w) = games_store w) /\
  (requests_sent (on_refresh_click env w) <> requests_sent w ->
   strip (profile_entry w) <> EmptyString /\
   requests_sent (on_refresh_click env w)
   = (requests_sent w ++ [games_url (strip (profile_entry w))])%list).
Proof.
  split.
  - intros H. apply strip_empty in H. unfold on_refresh_click.
    rewrite H. simpl. auto.
  - intros H. destruct (all_space (profile_entry w)) eqn:E.
    + exfalso. apply H. apply strip_empty in E.
      unfold on_refresh_click. rewrite E. reflexivity.
    + split.
      * intros Hs. apply strip_empty in Hs. congruence.
      * rewrite (refresh_unfold env w E). cbv zeta.
        destruct (requests_get env _); [reflexivity|].
        destruct (ET_fromstring env _); reflexivity.
Qed.

Lemma blank_profile_sends_no_request_witness :
  let env := env_with (Parsed sample_root) in
  let w := init "  " "/srv/steamapps" in
  all_space (profile_entry w) = true /\
  on_refresh_click env w = show_message w "Please enter a profile ID." /\
  requests_sent (on_refresh_click env w) = requests_sent w /\
  games_store (on_refresh_click env w) = games_store w.
Proof.
  split; [reflexivity|].
  apply (proj1 (blank_profile_sends_no_request
                  (env_with (Parsed sample_root))
                  (init "  " "/srv/steamapps"))).
  reflexivity.
Defined.

(** C2 (as amended).  When the response arrives and its body does not
    parse, the refresh reports the parse error and the store is empty
    afterwards: it is cleared once the response is in, before the body is
    parsed, so the prior rows and their flags are gone. *)
Theorem refresh_parse_error_clears_store
  (env : Env) (w : Window) (body e : string) :
  all_space (profile_entry w) = false ->
  requests_get env (games_url (strip (profile_entry w))) = Response body ->
  ET_fromstring env body = ParseError e ->
  dialogs (on_refresh_click env w)
  = (dialogs w ++ [("Failed to parse the XML: " ++ e)%string])%list /\
  games_store (on_refresh_click env w) = [] /\
  visible_rows (on_refresh_click env w) = [].
Proof.
  intros Hp Hr He. rewrite (refresh_unfold env w Hp). cbv zeta.
  rewrite Hr, He. repeat split.
Qed.

Lemma refresh_parse_error_clears_store_witness :
  let env := env_with (ParseError "syntax error: line 1, column 0") in
  let w := with_rows portal_rows in
  dialogs (on_refresh_click env w)
  = ["Failed to parse the XML: syntax error: line 1, column 0"] /\
  games_store (on_refresh_click env w) = [] /\
  visible_rows (on_refresh_click env w) = [].
Proof.
  apply (refresh_parse_error_clears_store
           (env_with (ParseError "syntax error: line 1, column 0"))
           (with_rows portal_rows) "body"
           "syntax error: line 1, column 0");
    reflexivity.
Defined.

(** C2 as written fails: a refresh that ends in the parse-error message
    leaves the store empty, not as it was. *)
Lemma refresh_parse_error_counterexample :
  let env := env_with (ParseError "syntax error: line 1, column 0") in
  let w := with_rows portal_rows in
  ET_fromstring env "body" = ParseError "syntax error: line 1, column 0" /\
  dialogs (on_refresh_click env w)
  = ["Failed to parse the XML: syntax error: line 1, column 0"] /\
  games_store w = portal_rows /\
  games_store (on_refresh_click env w) = [] /\
  games_store (on_refresh_click env w) <> games_store w.
Proof.
  repeat split. discriminate.
Qed.

(** C4.  A refresh that fetches and parses a document replaces the store:
    whatever rows and flags it held before, it then holds the rows of the
    new document and nothing else, every one of them unselected. *)
Theorem refresh_installs_fresh_batch
  (env : Env) (w : Window) (body : string) (root : Element) :
  all_space (profile_entry w) = false ->
  requests_get env (games_url (strip (profile_entry w))) = Response body ->
  ET_fromstring env body = Parsed root ->
  games_store (on_refresh_click env w) = parsed_rows root /\
  Forall (fun r => toggled r = false) (games_store (on_refresh_click env w)) /\
  (forall prior,
      games_store (on_refresh_click env (set_games_store w prior))
      = games_store (on_refresh_click env w)).
Proof.
  intros Hp Hr He.
  assert (E : forall prior,
             games_store (on_refresh_click env (set_games_store w prior))
             = parsed_rows root).
  { intros prior. rewrite refresh_unfold by exact Hp. cbv zeta.
    simpl profile_entry. now rewrite Hr, He. }
  assert (E0 : games_store (on_refresh_click env w) = parsed_rows root).
  { rewrite (refresh_unfold env w Hp). cbv zeta. now rewrite Hr, He. }
  split; [exact E0|]. split.
  - rewrite E0. apply parsed_rows_untoggled.
  - intros prior. now rewrite E, E0.
Qed.

Lemma refresh_installs_fresh_batch_witness :
  let env := env_with (Parsed sample_root) in
  let w := with_rows portal_rows in
  games_store (on_refresh_click env w) = parsed_rows sample_root /\
  Forall (fun r => toggled r = false) (games_store (on_refresh_click env w)) /\
  (forall prior,
      games_store (on_refresh_click env (set_games_store w prior))
      = games_store (on_refresh_click env w)).
Proof.
  apply (refresh_installs_fresh_batch (env_with (Parsed sample_root))
           (with_rows portal_rows) "body" sample_root);
    reflexivity.
Defined.

(** C5 (as amended).  For every document that parses, the store receives
    one row per game element whose first appID child and first name child
    both carry non-empty text, in document order, built from those two
    texts; a game element without such an appID child or without such a
    name child gives no row, and no message is shown for it. *)
Theorem refresh_keeps_complete_games
  (env : Env) (w : Window) (body : string) (root : Element) :
  all_space (profile_entry w) = false ->
  requests_get env (games_url (strip (profile_entry w))) = Response body ->
  ET_fromstring env body = Parsed root ->
  exists keep : Element -> option Row,
    (forall g r,
        keep g = Some r <->
        toggled r = false /\
        first_child_text g "appID" (app_id r) /\
        first_child_text g "name" (game_name r)) /\
    (forall g,
        keep g = None <->
        ~ (exists a n, first_child_text g "appID" a /\
                       first_child_text g "name" n)) /\
    games_store (on_refresh_click env w)
    = flat_map (fun g => option_list (keep g)) (iter root "game") /\
    dialogs (on_refresh_click env w) = dialogs w.
Proof.
  intros Hp Hr He. exists record_of.
  split; [exact record_of_some|]. split; [exact record_of_none|].
  rewrite (refresh_unfold env w Hp). cbv zeta. rewrite Hr, He.
  split; reflexivity.
Qed.

Lemma refresh_keeps_complete_games_witness :
  let env := env_with (Parsed sample_root) in
  let w := with_rows portal_rows in
  exists keep : Element -> option Row,
    (forall g r,
        keep g = Some r <->
        toggled r = false /\
        first_child_text g "appID" (app_id r) /\
        first_child_text g "name" (game_name r)) /\
    (forall g,
        keep g = None <->
        ~ (exists a n, first_child_text g "appID" a /\
                       first_child_text g "name" n)) /\
    games_store (on_refresh_click env w)
    = flat_map (fun g => option_list (keep g)) (iter sample_root "game") /\
    dialogs (on_refresh_click env w) = dialogs w.
Proof.
  apply (refresh_keeps_complete_games (env_with (Parsed sample_root))
           (with_rows portal_rows) "body" sample_root);
    reflexivity.
Defined.

(** C5 as written fails: a game element that has an appID child with
    non-empty text and a name child with non-empty text gives no row when
    an empty appID child comes before the non-empty one. *)
Lemma refresh_later_child_counterexample :
  let root := Elem "gamesList" None [twice_id_game] in
  let env := env_with (Parsed root) in
  iter root "game" = [twice_id_game] /\
  some_child_text twice_id_game "appID" "10" /\
  some_child_text twice_id_game "name" "Counter-Strike" /\
  games_store (on_refresh_click env (with_rows [])) = [].
Proof.
  split; [reflexivity|]. split; [|split; [|reflexivity]].
  - exists (Elem "appID" (Some "10") []). simpl.
    repeat split; auto; discriminate.
  - exists (Elem "name" (Some "Counter-Strike") []). simpl.
    repeat split; auto; discriminate.
Qed.

(* ------------------------------------------------------------------ *)
(** ** Download *)

Lemma format_template (id name : string) :
  format STEAM_MANIFEST_TEMPLATE [("app_id", id); ("app_name", name)]
  = Some (manifest_text id name).
Proof. reflexivity. Qed.

Lemma manifest_content_text (id name : string) :
  manifest_content id name = manifest_text id name.
Proof. unfold manifest_content. now rewrite format_template. Qed.

Lemma os_path_join_manifest (dir id : string) :
  os_path_join dir ("appmanifest_" ++ id ++ ".acf") = manifest_file dir id.
Proof.
  unfold os_path_join, manifest_file. simpl startswith.
  destruct (is_empty dir || endswith_char dir "/"%char); reflexivity.
Qed.

Lemma download_step_effect (env : Env) (dir : string)
  (w : Window) (n : nat) (r : Row) :
  toggled r = true ->
  let (w', n') := download_step env dir (w, n) r in
  files w' = (file_effect env dir r ++ files w)%list /\
  dialogs w' = (dialogs w ++ error_dialog env dir r)%list /\
  n' = n + (if succeeded env dir r then 1 else 0) /\
  games_store w' = games_store w /\
  library_entry w' = library_entry w.
Proof.
  intros Ht. unfold download_step, file_effect, error_dialog, succeeded,
    attempt.
  rewrite Ht, manifest_content_text, os_path_join_manifest.
  destruct (open_write env _ _); simpl;
    rewrite ?app_nil_r, ?Nat.add_0_r; auto.
Qed.

(** The loop of [on_download_click], row by row. *)
Lemma download_loop (env : Env) (dir : string) (rows : list Row) :
  forall (w : Window) (n : nat),
    let (w', n') := fold_left (download_step env dir) rows (w, n) in
    let sel := filter toggled rows in
    files w' = (rev (flat_map (file_effect env dir) sel) ++ files w)%list /\
    dialogs w' = (dialogs w ++ flat_map (error_dialog env dir) sel)%list /\
    n' = n + List.length (filter (succeeded env dir) sel) /\
    games_store w' = games_store w.
Proof.
  induction rows as [|r rows IH]; intros w n; cbn [fold_left filter].
  - simpl. rewrite app_nil_r, Nat.add_0_r. auto.
  - destruct (toggled r) eqn:Ht.
    + pose proof (download_step_effect env dir w n r Ht) as Hs.
      destruct (download_step env dir (w, n) r) as [w1 n1].
      destruct Hs as (Hf & Hd & Hn & Hg & _).
      specialize (IH w1 n1).
      destruct (fold_left (download_step env dir) rows (w1, n1)) as [w2 n2].
      destruct IH as (If & Id & In' & Ig). simpl.
      rewrite If, Id, In', Ig, Hf, Hd, Hn, Hg.
      repeat split.
      * rewrite rev_app_distr, <- app_assoc. f_equal. f_equal.
        unfold file_effect. now destruct (attempt env dir r).
      * now rewrite <- app_assoc.
      * destruct (succeeded env dir r); simpl; lia.
    + assert (E : download_step env dir (w, n) r = (w, n))
        by (unfold download_step; now rewrite Ht).
      rewrite E. apply IH.
Qed.

Lemma download_unfold (env : Env) (w : Window) :
  os_path_isdir env (library_entry w) = true ->
  let dir := library_entry w in
  let w' := on_download_click env w in
  files w' = (rev (flat_map (file_effect env dir) (selected w)) ++ files w)%list /\
  dialogs w'
  = (dialogs w ++ flat_map (error_dialog env dir) (selected w)
     ++ [created_message
           (List.length (filter (succeeded env dir) (selected w)))])%list /\
  games_store w' = games_store w.
Proof.
  intros Hd. unfold on_download_click. rewrite Hd. simpl negb. cbv iota.
  pose proof (download_loop env (library_entry w) (games_store w) w 0) as H.
  destruct (fold_left _ _ _) as [w1 n1].
  destruct H as (Hf & Hm & Hn & Hg). simpl.
  rewrite Hf, Hm, Hn, Hg. unfold selected, created_message. simpl.
  now rewrite <- app_assoc.
Qed.

Example download_chosen :
  dialogs (on_download_click env_denied (with_rows chosen_rows))
  = ["Error creating manifest for Portal 2: [Errno 13] Permission denied";
     "Successfully created 2 manifest files."] /\
  map fst (files (on_download_click env_denied (with_rows chosen_rows)))
  = ["/srv/steamapps/appmanifest_70.acf";
     "/srv/steamapps/appmanifest_400.acf"].
Proof. split; reflexivity. Qed.

(** C6.  With an existing library directory and no write failing, the
    download writes one file per selected row, in store order and nothing
    else: the file appmanifest_<id>.acf in that directory, holding the
    AppState text with the row's identifier in the AppID field and its name,
    as it is, in the name and installdir fields (which is what formatting the
    template gives); the closing message counts as many files as there are
    selected rows. *)
Theorem download_writes_selected_manifests (env : Env) (w : Window) :
  os_path_isdir env (library_entry w) = true ->
  (forall r, In r (selected w) -> attempt env (library_entry w) r = Written) ->
  files (on_download_click env w)
  = (rev (map (fun r => (manifest_file (library_entry w) (app_id r),
                         manifest_text (app_id r) (game_name r)))
            (selected w)) ++ files w)%list /\
  (forall r,
      format STEAM_MANIFEST_TEMPLATE
        [("app_id", app_id r); ("app_name", game_name r)]
      = Some (manifest_text (app_id r) (game_name r))) /\
  dialogs (on_download_click env w)
  = (dialogs w ++ [created_message (List.length (selected w))])%list.
Proof.
  intros Hd Hw. destruct (download_unfold env w Hd) as (Hf & Hm & _).
  rewrite Hf, Hm. clear Hf Hm. revert Hw.
  generalize (selected w) as sel. intros sel Hw.
  assert (E1 : flat_map (file_effect env (library_entry w)) sel
               = map (fun r => (manifest_file (library_entry w) (app_id r),
                                manifest_text (app_id r) (game_name r)))
                   sel).
  { induction sel as [|r l IH]; simpl; [reflexivity|].
    unfold file_effect at 1. rewrite Hw by (left; reflexivity). simpl.
    rewrite IH; [reflexivity|]. intros x Hx. apply Hw. right; exact Hx. }
  assert (E2 : flat_map (error_dialog env (library_entry w)) sel = []).
  { clear E1. induction sel as [|r l IH]; simpl; [reflexivity|].
    unfold error_dialog at 1. rewrite Hw by (left; reflexivity). simpl.
    apply IH. intros x Hx. apply Hw. right; exact Hx. }
  assert (E3 : filter (succeeded env (library_entry w)) sel = sel).
  { apply filter_all. intros r Hr. unfold succeeded. now rewrite Hw. }
  rewrite E1, E2, E3. repeat split.
Qed.

Lemma download_writes_selected_manifests_witness :
  let env := env_with (Parsed sample_root) in
  let w := with_rows chosen_rows in
  map fst (files (on_download_click env w))
  = ["/srv/steamapps/appmanifest_70.acf";
     "/srv/steamapps/appmanifest_620.acf";
     "/srv/steamapps/appmanifest_400.acf"] /\
  dialogs (on_download_click env w)
  = ["Successfully created 3 manifest files."].
Proof.
  destruct (download_writes_selected_manifests
              (env_with (Parsed sample_root)) (with_rows chosen_rows))
    as (Hf & _ & Hm).
  - reflexivity.
  - intros r _. reflexivity.
  - split; [rewrite Hf | rewrite Hm]; reflexivity.
Defined.

(** C7.  With a library path that is not an existing directory the
    download ends at once with the "valid Steam library path" message and
    writes no file, however many rows are selected. *)
Theorem download_rejects_bad_library_path (env : Env) (w : Window) :
  os_path_isdir env (library_entry w) = false ->
  on_download_click env w
  = show_message w "Please provide a valid Steam library path." /\
  files (on_download_click env w) = files w.
Proof.
  intros H. unfold on_download_click. rewrite H. split; reflexivity.
Qed.

Lemma download_rejects_bad_library_path_witness :
  let env := env_with (Parsed sample_root) in
  let w := set_games_store (init "gabe" "/nowhere") chosen_rows in
  os_path_isdir env (library_entry w) = false /\
  on_download_click env w
  = show_message w "Please provide a valid Steam library path." /\
  files (on_download_click env w) = files w.
Proof.
  split; [reflexivity|].
  apply (download_rejects_bad_library_path
           (env_with (Parsed sample_root))
           (set_games_store (init "gabe" "/nowhere") chosen_rows)).
  reflexivity.
Defined.

(** C8.  With an existing library directory, whatever the file system
    answers to each write: a failed write puts its error message, naming
    the row, among the dialogs and the loop goes on, so that every selected
    row is attempted and every selected row whose write succeeds has its
    file written; the closing message counts exactly the selected rows
    whose write succeeded. *)
Theorem download_survives_write_errors (env : Env) (w : Window) :
  os_path_isdir env (library_entry w) = true ->
  dialogs (on_download_click env w)
  = (dialogs w
     ++ flat_map (error_dialog env (library_entry w)) (selected w)
     ++ [created_message
           (List.length
              (filter (succeeded env (library_entry w)) (selected w)))])%list /\
  files (on_download_click env w)
  = (rev (flat_map (file_effect env (library_entry w)) (selected w))
     ++ files w)%list /\
  (forall r,
      In r (selected w) ->
      succeeded env (library_entry w) r = true ->
      In (manifest_file (library_entry w) (app_id r),
          manifest_text (app_id r) (game_name r))
         (files (on_download_click env w))).
Proof.
  intros Hd. destruct (download_unfold env w Hd) as (Hf & Hm & _).
  split; [exact Hm|]. split; [exact Hf|].
  intros r Hr Hs. rewrite Hf. apply in_or_app. left.
  apply in_rev. rewrite rev_involutive. apply in_flat_map.
  exists r. split; [exact Hr|].
  unfold succeeded in Hs. unfold file_effect.
  destruct (attempt env (library_entry w) r); try discriminate.
  left; reflexivity.
Qed.

Lemma download_survives_write_errors_witness :
  let w := with_rows chosen_rows in
  dialogs (on_download_click env_denied w)
  = ["Error creating manifest for Portal 2: [Errno 13] Permission denied";
     "Successfully created 2 manifest files."] /\
  In ("/srv/steamapps/appmanifest_70.acf", manifest_text "70" "Half-Life")
     (files (on_download_click env_denied w)).
Proof.
  destruct (download_survives_write_errors env_denied (with_rows chosen_rows))
    as (Hm & _ & Hin).
  - reflexivity.
  - split.
    + rewrite Hm. reflexivity.
    + apply (Hin (row true "70" "Half-Life")).
      * right; right; left; reflexivity.
      * reflexivity.
Defined.

(* ------------------------------------------------------------------ *)
(** ** More on the string operations *)

Lemma is_space_lower_char (c : ascii) : is_space (lower_char c) = is_space c.
Proof. destruct c as [[] [] [] [] [] [] [] []]; reflexivity. Qed.

Lemma lower_char_idem (c : ascii) : lower_char (lower_char c) = lower_char c.
Proof. destruct c as [[] [] [] [] [] [] [] []]; reflexivity. Qed.

Lemma lower_idem (s : string) : lower (lower s) = lower s.
Proof.
  induction s as [|c s IH]; simpl; [reflexivity|].
  now rewrite lower_char_idem, IH.
Qed.

Lemma is_empty_lower (s : string) : is_empty (lower s) = is_empty s.
Proof. destruct s; reflexivity. Qed.

Lemma lstrip_lower (s : string) : lstrip (lower s) = lower (lstrip s).
Proof.
  induction s as [|c s IH]; simpl; [reflexivity|].
  rewrite is_space_lower_char. destruct (is_space c); [exact IH | reflexivity].
Qed.

Lemma rstrip_lower (s : string) : rstrip (lower s) = lower (rstrip s).
Proof.
  induction s as [|c s IH]; simpl; [reflexivity|].
  rewrite IH, is_space_lower_char, is_empty_lower.
  destruct (is_space c && is_empty (rstrip s)); reflexivity.
Qed.

(** Trimming and lowering commute. *)
Lemma strip_lower (s : string) : strip (lower s) = lower (strip s).
Proof. unfold strip. now rewrite lstrip_lower, rstrip_lower. Qed.

Lemma rstrip_idem (s : string) : rstrip (rstrip s) = rstrip s.
Proof.
  induction s as [|c s IH]; simpl; [reflexivity|].
  destruct (is_space c && is_empty (rstrip s)) eqn:E; simpl; [reflexivity|].
  now rewrite IH, E.
Qed.

Lemma lstrip_left_trimmed (s : string) : left_trimmed (lstrip s) = true.
Proof.
  induction s as [|c s IH]; simpl; [reflexivity|].
  destruct (is_space c) eqn:E; [exact IH | simpl; now rewrite E].
Qed.

Lemma rstrip_left_trimmed (s : string) :
  left_trimmed s = true -> left_trimmed (rstrip s) = true.
Proof.
  destruct s as [|c s]; simpl; [reflexivity|].
  intros H. apply negb_true_iff in H. rewrite H. simpl. now rewrite H.
Qed.

Lemma lstrip_fixed (s : string) : left_trimmed s = true -> lstrip s = s.
Proof.
  destruct s as [|c s]; simpl; [reflexivity|].
  intros H. apply negb_true_iff in H. now rewrite H.
Qed.

Lemma strip_idem (s : string) : strip (strip s) = strip s.
Proof.
  unfold strip at 1.
  rewrite (lstrip_fixed (strip s)).
  - unfold strip. apply rstrip_idem.
  - unfold strip. apply rstrip_left_trimmed, lstrip_left_trimmed.
Qed.

Lemma lstrip_app (a b : string) :
  lstrip (a ++ b) = if all_space a then lstrip b else lstrip a ++ b.
Proof.
  induction a as [|c a IH]; simpl; [reflexivity|].
  destruct (is_space c); simpl; [exact IH | reflexivity].
Qed.

Lemma is_empty_app (a b : string) :
  is_empty (a ++ b) = is_empty a && is_empty b.
Proof. destruct a; reflexivity. Qed.

Lemma rstrip_app_space (a b : string) :
  all_space b = true -> rstrip (a ++ b) = rstrip a.
Proof.
  intros Hb. induction a as [|c a IH]; simpl.
  - now apply rstrip_empty.
  - now rewrite IH.
Qed.

(** Whitespace around a text is dropped by [strip]. *)
Lemma strip_padding (pre s post : string) :
  all_space pre = true -> all_space post = true ->
  strip (pre ++ s ++ post) = strip s.
Proof.
  intros Hpre Hpost. unfold strip.
  rewrite lstrip_app, Hpre, lstrip_app.
  destruct (all_space s) eqn:Hs.
  - apply lstrip_empty in Hpost. rewrite Hpost.
    apply lstrip_empty in Hs. now rewrite Hs.
  - now apply rstrip_app_space.
Qed.

Lemma str_app_assoc (a b c : string) : (a ++ b) ++ c = a ++ b ++ c.
Proof. induction a; simpl; congruence. Qed.

Lemma contains_trans (a b c : string) :
  contains a b = true -> contains b c = true -> contains a c = true.
Proof.
  rewrite !contains_spec. intros (p1 & q1 & ->) (p2 & q2 & ->).
  exists (p1 ++ p2), (q2 ++ q1).
  now rewrite !str_app_assoc.
Qed.

(* ------------------------------------------------------------------ *)
(** ** More on the filter *)

(** X1. the filter text is matched without regard to its own case: two
    texts that are equal up to case give the same window. *)
Theorem search_ignores_case (w : Window) (s1 s2 : string) :
  lower s1 = lower s2 ->
  on_search_changed w s1 = on_search_changed w s2.
Proof.
  intros H. unfold on_search_changed.
  now rewrite <- !strip_lower, H.
Qed.

Lemma search_ignores_case_witness :
  lower "PoRtAl" = lower "portal" /\
  on_search_changed (with_rows portal_rows) "PoRtAl"
  = on_search_changed (with_rows portal_rows) "portal".
Proof.
  split; [reflexivity|].
  apply (search_ignores_case (with_rows portal_rows) "PoRtAl" "portal").
  reflexivity.
Defined.

(** X2. whitespace typed before or after the filter text changes nothing. *)
Theorem search_ignores_padding (w : Window) (pre s post : string) :
  all_space pre = true -> all_space post = true ->
  on_search_changed w (pre ++ s ++ post) = on_search_changed w s.
Proof.
  intros Hpre Hpost. unfold on_search_changed.
  now rewrite strip_padding.
Qed.

Lemma search_ignores_padding_witness :
  on_search_changed (with_rows portal_rows) ("  " ++ "half" ++ " ")
  = on_search_changed (with_rows portal_rows) "half".
Proof.
  apply (search_ignores_padding (with_rows portal_rows) "  " "half" " ");
    reflexivity.
Defined.

Lemma filter_filter_implied {A : Type} (f g : A -> bool) (l : list A) :
  (forall x, f x = true -> g x = true) ->
  filter f l = filter f (filter g l).
Proof.
  intros H. induction l as [|a l IH]; simpl; [reflexivity|].
  destruct (f a) eqn:Ef.
  - rewrite (H a Ef). simpl. now rewrite Ef, IH.
  - destruct (g a); simpl; [now rewrite Ef|]; exact IH.
Qed.

(** X3. typing on narrows the view.  When the new filter text, trimmed and
    lowered, contains the old one, the rows shown under the new text are the
    rows shown under the old text that pass the new filter: no row hidden
    before comes back. *)
Theorem search_narrows (w : Window) (s1 s2 : string) :
  contains (lower (strip s2)) (lower (strip s1)) = true ->
  visible_rows (on_search_changed w s2)
  = filter (game_filter (on_search_changed w s2))
      (visible_rows (on_search_changed w s1)).
Proof.
  intros H. rewrite !visible_rows_filter. simpl games_store.
  apply filter_filter_implied. intros r.
  rewrite !game_filter_after_search. intros Hr.
  exact (contains_trans _ _ _ Hr H).
Qed.

Lemma search_narrows_witness :
  let w := with_rows portal_rows in
  visible_rows (on_search_changed w "Portal 2")
  = filter (game_filter (on_search_changed w "Portal 2"))
      (visible_rows (on_search_changed w "port")).
Proof.
  apply (search_narrows (with_rows portal_rows) "port" "Portal 2").
  reflexivity.
Defined.

(* ------------------------------------------------------------------ *)
(** ** More on toggling *)

(** Converse of [filter_indexed_nth]: what the filter shows at [path] is a
    row of the list, at the position the pair records. *)
Lemma filter_indexed_inv (f : Row -> bool) (l : list Row) :
  forall (k i path : nat) (r : Row),
    nth_error
      (filter (fun ir => f (snd ir)) (combine (seq k (List.length l)) l))
      path
    = Some (i, r) ->
    k <= i /\
    nth_error l (i - k) = Some r /\
    f r = true /\
    List.length (filter f (firstn (i - k) l)) = path.
Proof.
  induction l as [|a l IH]; intros k i path r H; simpl in H.
  - destruct path; discriminate.
  - destruct (f a) eqn:Ea.
    + destruct path as [|path]; simpl in H.
      * injection H as <- <-. rewrite Nat.sub_diag. simpl. auto.
      * destruct (IH (S k) i path r H) as (Hk & Hn & Hf & Hp).
        replace (i - k) with (S (i - S k)) by lia. simpl. rewrite Ea.
        simpl. repeat split; auto; lia.
    + destruct (IH (S k) i path r H) as (Hk & Hn & Hf & Hp).
      replace (i - k) with (S (i - S k)) by lia. simpl. rewrite Ea.
      repeat split; auto; lia.
Qed.

Lemma filtered_store_inv (w : Window) (path i : nat) (r : Row) :
  nth_error (filtered_store w) path = Some (i, r) ->
  nth_error (games_store w) i = Some r /\
  game_filter w r = true /\
  List.length (filter (game_filter w) (firstn i (games_store w))) = path.
Proof.
  intros H. unfold filtered_store, indexed in H.
  apply filter_indexed_inv in H. rewrite Nat.sub_0_r in H. tauto.
Qed.

Lemma visible_rows_length (w : Window) :
  List.length (visible_rows w) = List.length (filtered_store w).
Proof. unfold visible_rows. apply length_map. Qed.

(** X4. a toggle fails exactly when its path lies beyond the rows on show;
    on every path of the view it succeeds. *)
Theorem toggle_fails_beyond_view (w : Window) (path : nat) :
  on_toggle_toggled w path = None <->
  List.length (visible_rows w) <= path.
Proof.
  rewrite visible_rows_length, <- nth_error_None. unfold on_toggle_toggled.
  destruct (nth_error (filtered_store w) path) as [[i r]|] eqn:E.
  - destruct (filtered_store_inv w path i r E) as (Hn & _). simpl.
    rewrite Hn. split; discriminate.
  - tauto.
Qed.

Lemma set_toggled_back (l : list Row) (i : nat) (b : bool) (r : Row) :
  nth_error l i = Some r ->
  set_toggled (set_toggled l i b) i (toggled r) = l.
Proof.
  revert i; induction l as [|a l IH]; intros [|i] H; simpl in *;
    try discriminate.
  - injection H as ->. now destruct r.
  - now rewrite IH.
Qed.

Lemma set_toggled_firstn (l : list Row) (i : nat) (b : bool) :
  firstn i (set_toggled l i b) = firstn i l.
Proof.
  revert i; induction l as [|a l IH]; intros [|i]; simpl; try reflexivity.
  now rewrite IH.
Qed.

Lemma set_games_store_twice (w : Window) (l : list Row) :
  set_games_store (set_games_store w l) (games_store w) = w.
Proof. now destruct w. Qed.

(** X5. toggling the same path twice under an unchanged filter gives back
    the window as it was. *)
Theorem toggle_twice_restores (w w' : Window) (path : nat) :
  on_toggle_toggled w path = Some w' ->
  on_toggle_toggled w' path = Some w.
Proof.
  unfold on_toggle_toggled at 1.
  destruct (nth_error (filtered_store w) path) as [[i r]|] eqn:E;
    [|discriminate].
  destruct (filtered_store_inv w path i r E) as (Hn & Hf & Hp).
  simpl. rewrite Hn. intros H; injection H as <-.
  set (r' := {| toggled := negb (toggled r); app_id := app_id r;
                game_name := game_name r |}).
  assert (Hn' : nth_error (set_toggled (games_store w) i (negb (toggled r))) i
                = Some r') by now apply set_toggled_same.
  unfold on_toggle_toggled.
  rewrite (filtered_store_shown _ path i r').
  - simpl. rewrite Hn'. simpl. rewrite negb_involutive.
    rewrite (set_toggled_back _ _ _ _ Hn). now rewrite set_games_store_twice.
  - exact Hn'.
  - exact Hf.
  - simpl games_store. rewrite set_toggled_firstn.
    rewrite <- Hp. reflexivity.
Qed.

Lemma toggle_twice_restores_witness :
  let w := on_search_changed (with_rows portal_rows) "half" in
  exists w',
    on_toggle_toggled w 0 = Some w' /\ on_toggle_toggled w' 0 = Some w.
Proof.
  eexists. split; [reflexivity|].
  apply (toggle_twice_restores
           (on_search_changed (with_rows portal_rows) "half")).
  reflexivity.
Defined.

Lemma labels_filter_set_toggled (f : Row -> bool) (l : list Row)
  (i : nat) (b : bool) :
  (forall r c, f {| toggled := c; app_id := app_id r;
                    game_name := game_name r |} = f r) ->
  labels (filter f (set_toggled l i b)) = labels (filter f l).
Proof.
  intros Hf. revert i; induction l as [|a l IH]; intros [|i]; simpl;
    try reflexivity.
  - rewrite Hf. destruct (f a); reflexivity.
  - destruct (f a); simpl; now rewrite IH.
Qed.

(** X6. a toggle changes no identifier, no name and no position, neither in
    the store nor in the view: the same rows stay on show, in the same
    order, and the filter text is kept. *)
Theorem toggle_keeps_view (w w' : Window) (path : nat) :
  on_toggle_toggled w path = Some w' ->
  labels (games_store w') = labels (games_store w) /\
  labels (visible_rows w') = labels (visible_rows w) /\
  search_text w' = search_text w.
Proof.
  unfold on_toggle_toggled.
  destruct (nth_error (filtered_store w) path) as [[i r]|]; [|discriminate].
  simpl. destruct (nth_error (games_store w) i); [|discriminate].
  intros H; injection H as <-. split; [|split; [|reflexivity]].
  - rewrite <- (filter_all (fun _ => true) (set_toggled _ _ _)) by auto.
    rewrite <- (filter_all (fun _ => true) (games_store w)) at 2 by auto.
    simpl games_store. now apply labels_filter_set_toggled.
  - rewrite !visible_rows_filter. simpl games_store.
    apply labels_filter_set_toggled. reflexivity.
Qed.

Lemma toggle_keeps_view_witness :
  let w := on_search_changed (with_rows portal_rows) "port" in
  exists w',
    on_toggle_toggled w 1 = Some w' /\
    labels (visible_rows w') = [("400", "Portal"); ("620", "Portal 2")].
Proof.
  eexists. split; [reflexivity|].
  destruct (toggle_keeps_view
              (on_search_changed (with_rows portal_rows) "port") _ 1
              eq_refl) as (_ & H & _).
  rewrite H. reflexivity.
Defined.

(* ------------------------------------------------------------------ *)
(** ** More on refresh *)

Lemma refresh_blank (env : Env) (w : Window) :
  all_space (profile_entry w) = true ->
  on_refresh_click env w = show_message w "Please enter a profile ID.".
Proof.
  intros H. apply strip_empty in H. unfold on_refresh_click. now rewrite H.
Qed.

(** X7. when the request fails, the refresh shows the failure and leaves the
    batch, its flags and the view as they were; the one request is on
    record. *)
Theorem refresh_request_failure_keeps_batch
  (env : Env) (w : Window) (e : string) :
  all_space (profile_entry w) = false ->
  requests_get env (games_url (strip (profile_entry w)))
  = RequestException e ->
  games_store (on_refresh_click env w) = games_store w /\
  visible_rows (on_refresh_click env w) = visible_rows w /\
  dialogs (on_refresh_click env w)
  = (dialogs w ++ [("Failed to fetch the profile: " ++ e)%string])%list /\
  requests_sent (on_refresh_click env w)
  = (requests_sent w ++ [games_url (strip (profile_entry w))])%list.
Proof.
  intros Hp Hr. rewrite (refresh_unfold env w Hp). cbv zeta. rewrite Hr.
  repeat split.
Qed.

Lemma refresh_request_failure_keeps_batch_witness :
  let env :=
    {| requests_get := fun _ => RequestException "404 Client Error";
       ET_fromstring := fun _ => Parsed sample_root;
       os_path_isdir := fun _ => true;
       open_write := fun _ _ => Written |} in
  let w := with_rows portal_rows in
  games_store (on_refresh_click env w) = portal_rows /\
  visible_rows (on_refresh_click env w) = portal_rows /\
  dialogs (on_refresh_click env w)
  = ["Failed to fetch the profile: 404 Client Error"] /\
  requests_sent (on_refresh_click env w)
  = ["https://steamcommunity.com/id/gabe/games?tab=all&xml=1"].
Proof.
  apply (refresh_request_failure_keeps_batch
           {| requests_get := fun _ => RequestException "404 Client Error";
              ET_fromstring := fun _ => Parsed sample_root;
              os_path_isdir := fun _ => true;
              open_write := fun _ _ => Written |}
           (with_rows portal_rows) "404 Client Error");
    reflexivity.
Defined.

(** X8. whatever the outside world answers, one refresh sends at most one
    request (to the url of the trimmed profile id), shows at most one
    dialog, writes no file and leaves the filter text and both entries
    alone. *)
Theorem refresh_one_request_one_dialog (env : Env) (w : Window) :
  (requests_sent (on_refresh_click env w) = requests_sent w \/
   requests_sent (on_refresh_click env w)
   = (requests_sent w ++ [games_url (strip (profile_entry w))])%list) /\
  (dialogs (on_refresh_click env w) = dialogs w \/
   exists m, dialogs (on_refresh_click env w) = (dialogs w ++ [m])%list) /\
  files (on_refresh_click env w) = files w /\
  search_text (on_refresh_click env w) = search_text w /\
  profile_entry (on_refresh_click env w) = profile_entry w /\
  library_entry (on_refresh_click env w) = library_entry w.
Proof.
  destruct (all_space (profile_entry w)) eqn:Hp.
  - rewrite (refresh_blank env w Hp). simpl. repeat split; eauto.
  - rewrite (refresh_unfold env w Hp). cbv zeta.
    destruct (requests_get env _); [simpl; repeat split; eauto|].
    destruct (ET_fromstring env _); simpl; repeat split; eauto.
Qed.

(** X9. refreshing twice against the same answers leaves the same batch as
    refreshing once: rows do not pile up. *)
Theorem refresh_twice_same_batch (env : Env) (w : Window) :
  games_store (on_refresh_click env (on_refresh_click env w))
  = games_store (on_refresh_click env w).
Proof.
  destruct (all_space (profile_entry w)) eqn:Hp.
  - rewrite (refresh_blank env w Hp).
    now rewrite (refresh_blank env (show_message w _) Hp).
  - rewrite (refresh_unfold env w Hp). cbv zeta.
    destruct (requests_get env (games_url (strip (profile_entry w))))
      as [e|body] eqn:Hr.
    + rewrite refresh_unfold by exact Hp. cbv zeta. simpl profile_entry.
      now rewrite Hr.
    + destruct (ET_fromstring env body) as [e|root] eqn:He.
      * rewrite refresh_unfold by exact Hp. cbv zeta. simpl profile_entry.
        now rewrite Hr, He.
      * rewrite refresh_unfold by exact Hp. cbv zeta. simpl profile_entry.
        now rewrite Hr, He.
Qed.

(** X10. whitespace around the profile id is ignored: the padded id leads to
    the same request, the same batch and the same dialogs as the bare
    one. *)
Theorem refresh_ignores_padding
  (env : Env) (w : Window) (pre p post : string) :
  all_space pre = true -> all_space post = true ->
  let padded := on_refresh_click env (set_profile_entry w (pre ++ p ++ post)) in
  let bare := on_refresh_click env (set_profile_entry w p) in
  requests_sent padded = requests_sent bare /\
  games_store padded = games_store bare /\
  dialogs padded = dialogs bare.
Proof.
  intros Hpre Hpost. cbv zeta. unfold on_refresh_click.
  simpl profile_entry. rewrite (strip_padding pre p post Hpre Hpost).
  destruct (is_empty (strip p)); [repeat split|].
  destruct (requests_get env _); [repeat split|].
  destruct (ET_fromstring env _); [repeat split|].
  rewrite !refresh_loop. repeat split.
Qed.

Lemma refresh_ignores_padding_witness :
  let env := env_with (Parsed sample_root) in
  let w := with_rows portal_rows in
  requests_sent (on_refresh_click env (set_profile_entry w (" " ++ "gabe" ++ "  ")))
  = requests_sent (on_refresh_click env (set_profile_entry w "gabe")).
Proof.
  apply (refresh_ignores_padding (env_with (Parsed sample_root))
           (with_rows portal_rows) " " "gabe" "  ");
    reflexivity.
Defined.

Lemma parsed_rows_complete (root : Element) :
  Forall complete_row (parsed_rows root).
Proof.
  unfold parsed_rows. apply Forall_flat_map, Forall_forall. intros g _.
  destruct (record_of g) as [r|] eqn:E; simpl; constructor; auto.
  apply record_of_some in E. destruct E as (_ & Ha & Hn).
  destruct Ha as (? & ? & ? & _ & _ & _ & _ & Ha).
  destruct Hn as (? & ? & ? & _ & _ & _ & _ & Hn).
  split; assumption.
Qed.

Lemma refresh_frame (env : Env) (w : Window) :
  files (on_refresh_click env w) = files w /\
  library_entry (on_refresh_click env w) = library_entry w /\
  search_text (on_refresh_click env w) = search_text w.
Proof.
  destruct (all_space (profile_entry w)) eqn:Hp.
  - rewrite (refresh_blank env w Hp). auto.
  - rewrite (refresh_unfold env w Hp). cbv zeta.
    destruct (requests_get env _); [auto|].
    destruct (ET_fromstring env _); simpl; auto.
Qed.

(** The store after a refresh: the old batch, nothing, or a parsed batch. *)
Lemma refresh_store_cases (env : Env) (w : Window) :
  games_store (on_refresh_click env w) = games_store w \/
  games_store (on_refresh_click env w) = [] \/
  exists root, games_store (on_refresh_click env w) = parsed_rows root.
Proof.
  destruct (all_space (profile_entry w)) eqn:Hp.
  - rewrite (refresh_blank env w Hp). auto.
  - rewrite (refresh_unfold env w Hp). cbv zeta.
    destruct (requests_get env _); [auto|].
    destruct (ET_fromstring env _); simpl; eauto.
Qed.

(* ------------------------------------------------------------------ *)
(** ** More on download *)

Lemma download_step_frame (env : Env) (dir : string)
  (acc : Window * nat) (r : Row) :
  games_store (fst (download_step env dir acc r)) = games_store (fst acc) /\
  search_text (fst (download_step env dir acc r)) = search_text (fst acc) /\
  profile_entry (fst (download_step env dir acc r)) = profile_entry (fst acc) /\
  library_entry (fst (download_step env dir acc r)) = library_entry (fst acc) /\
  requests_sent (fst (download_step env dir acc r)) = requests_sent (fst acc).
Proof.
  destruct acc as [w n]. unfold download_step.
  destruct (toggled r); [|simpl; auto].
  destruct (open_write env _ _); simpl; auto.
Qed.

Lemma download_loop_frame (env : Env) (dir : string) (rows : list Row) :
  forall acc : Window * nat,
    games_store (fst (fold_left (download_step env dir) rows acc))
    = games_store (fst acc) /\
    search_text (fst (fold_left (download_step env dir) rows acc))
    = search_text (fst acc) /\
    profile_entry (fst (fold_left (download_step env dir) rows acc))
    = profile_entry (fst acc) /\
    library_entry (fst (fold_left (download_step env dir) rows acc))
    = library_entry (fst acc) /\
    requests_sent (fst (fold_left (download_step env dir) rows acc))
    = requests_sent (fst acc).
Proof.
  induction rows as [|r rows IH]; intros acc; cbn [fold_left]; [auto|].
  destruct (IH (download_step env dir acc r)) as (H1 & H2 & H3 & H4 & H5).
  destruct (download_step_frame env dir acc r) as (G1 & G2 & G3 & G4 & G5).
  rewrite H1, H2, H3, H4, H5. auto.
Qed.

(** Download touches dialogs and files only. *)
Lemma download_frame (env : Env) (w : Window) :
  games_store (on_download_click env w) = games_store w /\
  search_text (on_download_click env w) = search_text w /\
  profile_entry (on_download_click env w) = profile_entry w /\
  library_entry (on_download_click env w) = library_entry w /\
  requests_sent (on_download_click env w) = requests_sent w.
Proof.
  unfold on_download_click.
  destruct (os_path_isdir env (library_entry w)); simpl negb; cbv iota;
    [|simpl; auto].
  pose proof (download_loop_frame env (library_entry w) (games_store w)
                (w, 0)) as H.
  destruct (fold_left _ _ _) as [w1 n1]. simpl in *. exact H.
Qed.

(** X12. the download does not look at the filter: with any filter text in
    force it writes the same files and shows the same dialogs as with none,
    hidden selected rows included. *)
Theorem download_independent_of_filter
  (env : Env) (w : Window) (s : string) :
  files (on_download_click env (on_search_changed w s))
  = files (on_download_click env w) /\
  dialogs (on_download_click env (on_search_changed w s))
  = dialogs (on_download_click env w).
Proof.
  destruct (os_path_isdir env (library_entry w)) eqn:Hd.
  - destruct (download_unfold env w Hd) as (Hf & Hm & _).
    destruct (download_unfold env (on_search_changed w s) Hd)
      as (Hf' & Hm' & _).
    rewrite Hf, Hm, Hf', Hm'. split; reflexivity.
  - unfold on_download_click. simpl library_entry. rewrite Hd.
    split; reflexivity.
Qed.

(** X13. a download leaves the batch and every flag as they were, and every
    file it writes is the manifest file of a selected row in the library
    directory: nothing is written for an unselected row or anywhere else. *)
Theorem download_writes_only_for_selected (env : Env) (w : Window) :
  games_store (on_download_click env w) = games_store w /\
  forall p c,
    In (p, c) (files (on_download_click env w)) ->
    In (p, c) (files w) \/
    exists r, In r (selected w) /\
              p = manifest_file (library_entry w) (app_id r).
Proof.
  split; [apply download_frame|]. intros p c.
  destruct (os_path_isdir env (library_entry w)) eqn:Hd.
  - destruct (download_unfold env w Hd) as (Hf & _). rewrite Hf.
    intros H. apply in_app_or in H. destruct H as [H|H]; [|auto].
    right. apply in_rev in H. apply in_flat_map in H.
    destruct H as (r & Hr & H). exists r. split; [exact Hr|].
    unfold file_effect in H.
    destruct (attempt env (library_entry w) r); simpl in H;
      try contradiction; destruct H as [H|[]]; congruence.
  - unfold on_download_click. rewrite Hd. simpl. auto.
Qed.

Lemma str_length_app (a b : string) :
  String.length (a ++ b) = String.length a + String.length b.
Proof. induction a; simpl; congruence. Qed.

Lemma str_app_inv_head (p x y : string) : p ++ x = p ++ y -> x = y.
Proof. induction p; simpl; intros H; [exact H | injection H; auto]. Qed.

Lemma str_app_inv_tail (x y s : string) : x ++ s = y ++ s -> x = y.
Proof.
  revert y; induction x as [|c x IH]; intros [|d y] H; simpl in H.
  - reflexivity.
  - apply (f_equal String.length) in H. simpl in H.
    rewrite str_length_app in H. lia.
  - apply (f_equal String.length) in H. simpl in H.
    rewrite str_length_app in H. lia.
  - injection H as -> H. f_equal. now apply IH.
Qed.

(** Within one library directory, different identifiers give different
    manifest files. *)
Lemma manifest_file_injective (dir id1 id2 : string) :
  manifest_file dir id1 = manifest_file dir id2 -> id1 = id2.
Proof.
  unfold manifest_file. intros H.
  apply str_app_inv_head, str_app_inv_head, str_app_inv_head in H.
  now apply str_app_inv_tail in H.
Qed.

(** X15. pressing Download again, the outside world answering as before,
    repeats the run: the same dialogs are shown again and the same files
    are written again. *)
Theorem download_twice_repeats (env : Env) (w : Window) :
  exists report written,
    dialogs (on_download_click env w) = (dialogs w ++ report)%list /\
    files (on_download_click env w) = (written ++ files w)%list /\
    dialogs (on_download_click env (on_download_click env w))
    = (dialogs w ++ report ++ report)%list /\
    files (on_download_click env (on_download_click env w))
    = (written ++ written ++ files w)%list.
Proof.
  destruct (download_frame env w) as (Hg & _ & _ & Hl & _).
  destruct (os_path_isdir env (library_entry w)) eqn:Hd.
  - destruct (download_unfold env w Hd) as (Hf & Hm & _).
    assert (Hd' : os_path_isdir env (library_entry (on_download_click env w))
                  = true) by now rewrite Hl.
    destruct (download_unfold env _ Hd') as (Hf' & Hm' & _).
    unfold selected in *. rewrite Hg, Hl in Hf', Hm'.
    eexists; eexists. split; [exact Hm|]. split; [exact Hf|].
    rewrite Hm', Hf', Hm, Hf. split; now rewrite <- ?app_assoc.
  - exists ["Please provide a valid Steam library path."], [].
    unfold on_download_click at 1 3 5 6. rewrite Hl, Hd. simpl negb. cbv iota.
    unfold on_download_click. rewrite Hd. simpl.
    split; [reflexivity|]. split; [reflexivity|].
    split; [now rewrite <- app_assoc | reflexivity].
Qed.

(** X16. right after a refresh that received a response nothing is
    selected, so a download into an existing directory writes no file and
    reports zero manifests. *)
Theorem refresh_then_download_writes_nothing
  (env env' : Env) (w : Window) (body : string) :
  all_space (profile_entry w) = false ->
  requests_get env (games_url (strip (profile_entry w))) = Response body ->
  os_path_isdir env' (library_entry w) = true ->
  files (on_download_click env' (on_refresh_click env w)) = files w /\
  dialogs (on_download_click env' (on_refresh_click env w))
  = (dialogs (on_refresh_click env w) ++ [created_message 0])%list.
Proof.
  intros Hp Hr Hd.
  destruct (refresh_frame env w) as (Hf & Hl & _).
  assert (Hs : selected (on_refresh_click env w) = []).
  { unfold selected. rewrite (refresh_unfold env w Hp). cbv zeta. rewrite Hr.
    destruct (ET_fromstring env body) as [e|root]; [reflexivity|].
    simpl. pose proof (parsed_rows_untoggled root) as H.
    induction H as [|r l Hr' _ IH]; simpl; [reflexivity|].
    now rewrite Hr'. }
  assert (Hd' : os_path_isdir env' (library_entry (on_refresh_click env w))
                = true) by now rewrite Hl.
  destruct (download_unfold env' _ Hd') as (Hf' & Hm' & _).
  rewrite Hf', Hm', Hs, Hf. simpl. split; reflexivity.
Qed.

Lemma refresh_then_download_writes_nothing_witness :
  let env := env_with (Parsed sample_root) in
  let w := with_rows portal_rows in
  files (on_download_click env (on_refresh_click env w)) = [] /\
  dialogs (on_download_click env (on_refresh_click env w))
  = ["Successfully created 0 manifest files."].
Proof.
  apply (refresh_then_download_writes_nothing
           (env_with (Parsed sample_root)) (env_with (Parsed sample_root))
           (with_rows portal_rows) "body");
    reflexivity.
Defined.

(* ------------------------------------------------------------------ *)
(** ** What holds throughout a session *)

Lemma set_toggled_complete (l : list Row) (i : nat) (b : bool) :
  Forall complete_row l -> Forall complete_row (set_toggled l i b).
Proof.
  intros H. revert i. induction H as [|r l Hr Hl IH]; intros [|i]; simpl;
    constructor; auto.
Qed.

Lemma search_text_normalised (w : Window) (s : string) :
  normalised (search_text (on_search_changed w s)).
Proof.
  unfold normalised, on_search_changed; simpl. split.
  - apply lower_idem.
  - now rewrite strip_lower, strip_idem.
Qed.

(** X18. from start-up on, through any sequence of refreshes, searches,
    toggles, downloads, Manual clicks and edits of the two entries, every
    row of the store has a non-empty identifier and a non-empty name, and
    the stored filter text is lowered and trimmed. *)
Theorem session_rows_complete
  (sys_platform home : string) (w : Window) :
  reachable (startup sys_platform home) w ->
  Forall complete_row (games_store w) /\ normalised (search_text w).
Proof.
  induction 1 as [|env w _ [IHr IHs]|w text _ [IHr IHs]
                 |w w' path _ [IHr IHs] Ht|w _ [IHr IHs]
                 |env w _ [IHr IHs]|w text _ [IHr IHs]
                 |w text _ [IHr IHs]].
  - split; [constructor | split; reflexivity].
  - destruct (refresh_frame env w) as (_ & _ & Hs). rewrite Hs.
    split; [|exact IHs].
    destruct (refresh_store_cases env w) as [E|[E|[root E]]]; rewrite E.
    + exact IHr.
    + constructor.
    + apply parsed_rows_complete.
  - split; [exact IHr | apply search_text_normalised].
  - unfold on_toggle_toggled in Ht.
    destruct (nth_error (filtered_store w) path) as [[i r]|]; [|discriminate].
    simpl in Ht. destruct (nth_error (games_store w) i); [|discriminate].
    injection Ht as <-. simpl.
    split; [now apply set_toggled_complete | exact IHs].
  - split; assumption.
  - destruct (download_frame env w) as (Hg & Hs & _). rewrite Hg, Hs.
    split; assumption.
  - split; assumption.
  - split; assumption.
Qed.

Lemma session_rows_complete_witness :
  let w0 := startup "linux" "/home/gabe" in
  let w1 := set_profile_entry w0 "gabe" in
  let w2 := on_refresh_click (env_with (Parsed sample_root)) w1 in
  let w3 := on_search_changed w2 " Half " in
  Forall complete_row (games_store w3) /\ normalised (search_text w3).
Proof.
  apply (session_rows_complete "linux" "/home/gabe").
  apply reach_search, reach_refresh, reach_profile, reach_start.
Defined.

(* ------------------------------------------------------------------ *)
(** ** The default library path *)

Lemma endswith_char_app (a b : string) (c : ascii) :
  is_empty b = false -> endswith_char (a ++ b) c = endswith_char b c.
Proof.
  intros Hb. induction a as [|x a IH]; [reflexivity|].
  cbn [append endswith_char]. destruct (a ++ b) eqn:E.
  - destruct a; simpl in E; [subst b; discriminate Hb | discriminate E].
  - exact IH.
Qed.

Lemma os_path_join_first (a b : string) :
  startswith b "/" = false ->
  os_path_join a b
  = a ++ (if is_empty a || endswith_char a "/"%char then "" else "/") ++ b.
Proof.
  intros H. unfold os_path_join. rewrite H.
  destruct (is_empty a || endswith_char a "/"%char); reflexivity.
Qed.

(** Joining onto a path that ends in a plain component puts one separator
    in between. *)
Lemma os_path_join_onto (x b c : string) :
  is_empty b = false ->
  endswith_char b "/"%char = false ->
  startswith c "/" = false ->
  os_path_join (x ++ b) c = x ++ b ++ "/" ++ c.
Proof.
  intros Hb He Hc. unfold os_path_join.
  rewrite Hc, is_empty_app, Hb, andb_false_r, endswith_char_app, He by exact Hb.
  simpl. now rewrite str_app_assoc.
Qed.

(** X19. off Windows the default library path is the home directory, one
    separator unless the home already ends in one (or is empty), and the
    fixed steamapps path of the platform; it never ends in a separator, so
    the manifest of [id] goes to that path, a separator, and
    appmanifest_<id>.acf. *)
Theorem default_path_shape (sys_platform home id : string) :
  startswith sys_platform "win" = false ->
  get_default_steam_path sys_platform home
  = home
    ++ (if is_empty home || endswith_char home "/"%char then "" else "/")
    ++ (if startswith sys_platform "darwin"
        then "Library/Application Support/Steam/steamapps"
        else ".local/share/Steam/steamapps") /\
  manifest_file (get_default_steam_path sys_platform home) id
  = get_default_steam_path sys_platform home
    ++ "/appmanifest_" ++ id ++ ".acf".
Proof.
  intros Hw. unfold get_default_steam_path. rewrite Hw.
  set (sep := if is_empty home || endswith_char home "/"%char
              then "" else "/").
  assert (E : forall tail : string,
             home ++ sep ++ tail = (home ++ sep) ++ tail)
    by (intros; now rewrite str_app_assoc).
  destruct (startswith sys_platform "darwin");
    unfold os_path_join_all; cbn [fold_left].
  - rewrite (os_path_join_first home "Library") by reflexivity. fold sep.
    rewrite E, (os_path_join_onto _ "Library" "Application Support")
      by reflexivity.
    rewrite (os_path_join_onto _ "Library/Application Support" "Steam")
      by reflexivity.
    rewrite (os_path_join_onto _ "Library/Application Support/Steam"
               "steamapps") by reflexivity.
    cbn [append]. split; [now rewrite <- E|].
    unfold manifest_file.
    rewrite is_empty_app, andb_false_r, endswith_char_app by reflexivity.
    reflexivity.
  - rewrite (os_path_join_first home ".local") by reflexivity. fold sep.
    rewrite E, (os_path_join_onto _ ".local" "share") by reflexivity.
    rewrite (os_path_join_onto _ ".local/share" "Steam") by reflexivity.
    rewrite (os_path_join_onto _ ".local/share/Steam" "steamapps")
      by reflexivity.
    cbn [append]. split; [now rewrite <- E|].
    unfold manifest_file.
    rewrite is_empty_app, andb_false_r, endswith_char_app by reflexivity.
    reflexivity.
Qed.

Lemma default_path_shape_witness :
  get_default_steam_path "linux" "/home/gabe"
  = "/home/gabe/.local/share/Steam/steamapps" /\
  manifest_file (get_default_steam_path "linux" "/home/gabe") "70"
  = "/home/gabe/.local/share/Steam/steamapps/appmanifest_70.acf".
Proof.
  destruct (default_path_shape "linux" "/home/gabe" "70" eq_refl) as [H1 H2].
  split; [rewrite H1 | rewrite H2]; reflexivity.
Defined.

(* ------------------------------------------------------------------ *)
(** ** Callbacks in sequence *)

(** X11. the filter text stays in force across a refresh: whatever the
    refresh does to the store, the view afterwards shows the rows of the
    new store that pass the filter that was active before. *)
Theorem refresh_keeps_filter (env : Env) (w : Window) :
  visible_rows (on_refresh_click env w)
  = filter (game_filter w) (games_store (on_refresh_click env w)).
Proof.
  rewrite visible_rows_filter. apply filter_ext. intros r.
  unfold game_filter.
  destruct (refresh_frame env w) as (_ & _ & Hs). now rewrite Hs.
Qed.

(** X17. selecting a row through the view and then downloading writes that
    row's manifest.  If store row [i] is unselected and shown at [path],
    the toggle on [path] succeeds, and a download into an existing
    directory whose write for that row succeeds leaves the row's manifest
    file, with the row's manifest text, among the files written. *)
Theorem toggle_then_download_writes_manifest
  (env : Env) (w : Window) (path i : nat) (r : Row) :
  nth_error (games_store w) i = Some r ->
  toggled r = false ->
  shown_at w path i ->
  os_path_isdir env (library_entry w) = true ->
  attempt env (library_entry w) r = Written ->
  exists w',
    on_toggle_toggled w path = Some w' /\
    In (manifest_file (library_entry w) (app_id r),
        manifest_text (app_id r) (game_name r))
       (files (on_download_click env w')).
Proof.
  intros Hn Ht [(r0 & Hn0 & Hf) Hp] Hd Ha.
  rewrite Hn in Hn0. injection Hn0 as <-.
  unfold on_toggle_toggled.
  rewrite (filtered_store_shown w path i r Hn Hf Hp). simpl. rewrite Hn.
  eexists. split; [reflexivity|].
  set (w' := set_games_store w _).
  assert (Hd' : os_path_isdir env (library_entry w') = true) by exact Hd.
  destruct (download_unfold env w' Hd') as (Hfiles & _).
  rewrite Hfiles. apply in_or_app. left.
  apply in_rev. rewrite rev_involutive. apply in_flat_map.
  exists {| toggled := true; app_id := app_id r; game_name := game_name r |}.
  split.
  - unfold selected. apply filter_In. split; [|reflexivity].
    apply nth_error_In with (n := i). unfold w'. simpl games_store.
    rewrite (set_toggled_same _ _ _ _ Hn). now rewrite Ht.
  - unfold file_effect, attempt in *. simpl. simpl in Ha.
    change (library_entry w') with (library_entry w). rewrite Ha.
    left; reflexivity.
Qed.

Lemma toggle_then_download_writes_manifest_witness :
  let env := env_with (Parsed sample_root) in
  let w := on_search_changed (with_rows portal_rows) "half" in
  exists w',
    on_toggle_toggled w 0 = Some w' /\
    In ("/srv/steamapps/appmanifest_70.acf", manifest_text "70" "Half-Life")
       (files (on_download_click env w')).
Proof.
  apply (toggle_then_download_writes_manifest
           (env_with (Parsed sample_root))
           (on_search_changed (with_rows portal_rows) "half")
           0 2 (row false "70" "Half-Life")).
  - reflexivity.
  - reflexivity.
  - split; [|reflexivity]. eexists; split; reflexivity.
  - reflexivity.
  - reflexivity.
Defined.

(* ------------------------------------------------------------------ *)
(** ** One file per identifier *)

Lemma file_effect_paths (env : Env) (dir : string) (l : list Row) (p : string) :
  In p (map fst (flat_map (file_effect env dir) l)) ->
  exists r, In r l /\ p = manifest_file dir (app_id r).
Proof.
  rewrite in_map_iff. intros ([q c] & <- & H). apply in_flat_map in H.
  destruct H as (r & Hr & H). exists r. split; [exact Hr|].
  unfold file_effect in H.
  destruct (attempt env dir r); simpl in H; try contradiction;
    destruct H as [H|[]]; injection H as <- _; reflexivity.
Qed.

Lemma file_effect_nodup (env : Env) (dir : string) (l : list Row) :
  NoDup (map app_id l) ->
  NoDup (map fst (flat_map (file_effect env dir) l)).
Proof.
  induction l as [|r l IH]; simpl; intros H; [constructor|].
  inversion H as [|x xs Hnotin Hl]; subst.
  rewrite map_app. specialize (IH Hl).
  assert (Hfresh : ~ In (manifest_file dir (app_id r))
                      (map fst (flat_map (file_effect env dir) l))).
  { intros Hin. apply file_effect_paths in Hin.
    destruct Hin as (r' & Hr' & E). apply manifest_file_injective in E.
    apply Hnotin. rewrite E. now apply in_map. }
  unfold file_effect at 1. destruct (attempt env dir r); simpl.
  - constructor; assumption.
  - exact IH.
  - constructor; assumption.
Qed.

(** X14. in one download into an existing directory, selected rows with
    pairwise different identifiers are written to pairwise different files:
    whatever the file system answers, no path occurs twice among the files
    of that run, so no manifest overwrites another. *)
Theorem download_distinct_ids_distinct_files
  (env : Env) (w : Window) (written : list (string * string)) :
  os_path_isdir env (library_entry w) = true ->
  NoDup (map app_id (selected w)) ->
  files (on_download_click env w) = (written ++ files w)%list ->
  NoDup (map fst written).
Proof.
  intros Hd Hn Hw. destruct (download_unfold env w Hd) as (Hf & _).
  rewrite Hf in Hw. apply app_inv_tail in Hw. subst written.
  rewrite map_rev. apply NoDup_rev. now apply file_effect_nodup.
Qed.

Lemma download_distinct_ids_distinct_files_witness :
  let w := with_rows chosen_rows in
  NoDup (map fst (files (on_download_click env_denied w))).
Proof.
  apply (download_distinct_ids_distinct_files env_denied
           (with_rows chosen_rows)
           (files (on_download_click env_denied (with_rows chosen_rows)))).
  - reflexivity.
  - simpl. repeat constructor; simpl; intuition discriminate.
  - reflexivity.
Defined.
